(** * KOSH bridge service: a shallow embedding of [bridgeService.ts]

    The development follows [src/kosh_frontend/src/lib/bridgeService.ts]:
    the pure helpers ([hexToBytes], [toBytes], [getBridgeConfig],
    [getChainName], [getChainExplorerUrl], [validateBridgeParams]) are total
    Rocq functions; the asynchronous functions ([getAccountData],
    [createLockTransactionXDR], [buildStellarTransaction],
    [executeBridgeTransaction]) are programs over the remote calls they
    make, with JavaScript exceptions and [try]/[catch] written out.  Of the
    callers, the bridge form of the wallet's action panel and
    [getNetworkType] of [App.tsx] are followed as far as they build the
    request and show what comes back.

    Conventions.
    - A JavaScript string is a [string]: the sequence of its UTF-8 bytes.
      Every pattern the source matches is ASCII, so matching on bytes and on
      UTF-16 code units agree.
    - A JavaScript number is a binary64 [float].
    - What is thrown, and what a promise is rejected with, is an [Error]
      object: a name and a message.
    - [console.log]/[console.error]/[console.warn] produce no value and are
      left out. *)

From Stdlib Require Import String Ascii List ZArith NArith Bool Lia.
From Stdlib Require Import PrimFloat FloatAxioms SpecFloat FloatOps.
From Stdlib.Strings Require Import Byte.
From Stdlib Require Import DecimalString.
Import ListNotations.

Local Open Scope list_scope.
Local Open Scope string_scope.

(** ** JavaScript values *)

(** An [Error] object: its [name] and its [message]. *)
Record JsError : Type := mkError { err_name : string; err_message : string }.

(** [new Error(msg)] *)
Definition Error (msg : string) : JsError := mkError "Error" msg.

(** The [TypeError] of the runtime. *)
Definition TypeError (msg : string) : JsError := mkError "TypeError" msg.

(** [Error.prototype.toString] *)
Definition error_toString (e : JsError) : string :=
  if (err_name e =? "")%string then err_message e
  else if (err_message e =? "")%string then err_name e
  else err_name e ++ ": " ++ err_message e.

(** The template fragment [${(error as Error).message || error}]. *)
Definition message_or_error (e : JsError) : string :=
  if (err_message e =? "")%string then error_toString e else err_message e.

(** The result of evaluating an expression that may throw. *)
Inductive Completion (A : Type) : Type :=
| Normal (a : A)
| Abrupt (e : JsError).
Arguments Normal {A} a.
Arguments Abrupt {A} e.

(** Truthiness of a string: the empty string is the only falsy one. *)
Definition truthy (s : string) : bool := negb (s =? "")%string.

(** Truthiness of a number: [0], [-0] and [NaN] are falsy. *)
Definition truthy_number (x : float) : bool :=
  negb (PrimFloat.eqb x 0%float || PrimFloat.is_nan x).

(** [a || b] on strings. *)
Definition or_else (a b : string) : string := if truthy a then a else b.

Module JsString.

(** [s.startsWith(p)] *)
Fixpoint startsWith (p s : string) : bool :=
  match p, s with
  | EmptyString, _ => true
  | String a p', String b s' => (b =? a)%char && startsWith p' s'
  | String _ _, EmptyString => false
  end.

Definition is_upper (c : ascii) : bool :=
  (65 <=? nat_of_ascii c)%nat && (nat_of_ascii c <=? 90)%nat.

Definition lower_char (c : ascii) : ascii :=
  if is_upper c then ascii_of_nat (nat_of_ascii c + 32) else c.

(** [s.toLowerCase()].  Only the ASCII letters are mapped; no other
    character lowers to a hexadecimal digit or to [x], which is all the
    callers look at. *)
Fixpoint toLowerCase (s : string) : string :=
  match s with
  | EmptyString => EmptyString
  | String c r => String (lower_char c) (toLowerCase r)
  end.

Definition is_digit (c : ascii) : bool :=
  (48 <=? nat_of_ascii c)%nat && (nat_of_ascii c <=? 57)%nat.

(** The class [[a-f]]. *)
Definition is_lower_af (c : ascii) : bool :=
  (97 <=? nat_of_ascii c)%nat && (nat_of_ascii c <=? 102)%nat.

(** The class [[A-F]]. *)
Definition is_upper_AF (c : ascii) : bool :=
  (65 <=? nat_of_ascii c)%nat && (nat_of_ascii c <=? 70)%nat.

(** The class [[0-9a-f]]. *)
Definition is_lower_hex (c : ascii) : bool := is_digit c || is_lower_af c.

(** The class [[0-9a-fA-F]] (also written [[a-fA-F0-9]]). *)
Definition is_hex (c : ascii) : bool :=
  is_digit c || is_lower_af c || is_upper_AF c.

Fixpoint all (p : ascii -> bool) (s : string) : bool :=
  match s with
  | EmptyString => true
  | String c r => p c && all p r
  end.

(** [s.replace(/^0x/, "")] *)
Definition strip_0x (s : string) : string :=
  match s with
  | String a (String b r) =>
      if (a =? "0")%char && (b =? "x")%char then r else s
  | _ => s
  end.

(** The white space of ECMAScript's [trim], read on UTF-8 bytes: the
    number of leading bytes of [s] that make up one white-space character,
    [0] when [s] does not start with one. *)
Definition leading_space (s : list N) : nat :=
  match s with
  | (9 | 10 | 11 | 12 | 13 | 32)%N :: _ => 1
  | 194%N :: 160%N :: _ => 2                       (* U+00A0 *)
  | 225%N :: 154%N :: 128%N :: _ => 3              (* U+1680 *)
  | 226%N :: 128%N :: b :: _ =>
      if ((128 <=? b) && (b <=? 138) || (b =? 168) || (b =? 169) || (b =? 175))%N
      then 3 else 0                                (* U+2000-200A, 2028, 2029, 202F *)
  | 226%N :: 129%N :: 159%N :: _ => 3              (* U+205F *)
  | 227%N :: 128%N :: 128%N :: _ => 3              (* U+3000 *)
  | 239%N :: 187%N :: 191%N :: _ => 3              (* U+FEFF *)
  | _ => 0
  end.

(** The same, for the last character of a sequence given in reverse. *)
Definition trailing_space (r : list N) : nat :=
  match r with
  | (9 | 10 | 11 | 12 | 13 | 32)%N :: _ => 1
  | 160%N :: 194%N :: _ => 2
  | 128%N :: 154%N :: 225%N :: _ => 3
  | b :: 128%N :: 226%N :: _ =>
      if ((128 <=? b) && (b <=? 138) || (b =? 168) || (b =? 169) || (b =? 175))%N
      then 3 else 0
  | 159%N :: 129%N :: 226%N :: _ => 3
  | 128%N :: 128%N :: 227%N :: _ => 3
  | 191%N :: 187%N :: 239%N :: _ => 3
  | _ => 0
  end.

Fixpoint drop_while_space (fuel : nat) (width : list N -> nat) (s : list N)
  : list N :=
  match fuel with
  | O => s
  | S fuel' =>
      match width s with
      | O => s
      | n => drop_while_space fuel' width (skipn n s)
      end
  end.

Definition codes (s : string) : list N := map N_of_ascii (list_ascii_of_string s).
Definition of_codes (l : list N) : string :=
  string_of_list_ascii (map ascii_of_N l).

(** [s.trim()] *)
Definition trim (s : string) : string :=
  let l := drop_while_space (String.length s) leading_space (codes s) in
  let r := drop_while_space (String.length s) trailing_space (rev l) in
  of_codes (rev r).

End JsString.

(** ** Byte encodings of the destination chain identifier *)

(** [parseInt] of one hexadecimal digit, [0] for any other character (the
    caller has checked the digits already). *)
Definition hex_digit_value (c : ascii) : N :=
  let n := N_of_ascii c in
  if JsString.is_digit c then (n - 48)%N
  else if JsString.is_lower_af c then (n - 87)%N
  else if JsString.is_upper_AF c then (n - 55)%N
  else 0%N.

(** [parseInt(s.slice(i, i + 2), 16)] stored into a [Uint8Array] cell. *)
Definition parse_hex_pair (a b : ascii) : byte :=
  byte_of_ascii (ascii_of_N (16 * hex_digit_value a + hex_digit_value b)).

(** The loop of [hexToBytes]: two characters per output byte. *)
Fixpoint hex_pairs (s : string) : list byte :=
  match s with
  | String a (String b r) => parse_hex_pair a b :: hex_pairs r
  | _ => []
  end.

(** [StellarBridgeService.hexToBytes] *)
Definition hexToBytes (hex : string) : Completion (list byte) :=
  let s := JsString.strip_0x (JsString.toLowerCase hex) in
  if negb (JsString.all JsString.is_lower_hex s) || Nat.odd (String.length s)
  then Abrupt (Error "Invalid hex for dest-chain")
  else Normal (hex_pairs s).

(** [new TextEncoder().encode(val)]: the UTF-8 bytes of the string. *)
Definition utf8_encode (val : string) : list byte := list_byte_of_string val.

(** The test [/^[0-9a-fA-F]+$/.test(s)]. *)
Definition all_hex_nonempty (s : string) : bool :=
  negb (s =? "")%string && JsString.all JsString.is_hex s.

(** [StellarBridgeService.toBytes].  The argument is a string by its type,
    so the [typeof] guard never fires. *)
Definition toBytes (val : string) : list byte :=
  if JsString.startsWith "0x" val || all_hex_nonempty (JsString.strip_0x val)
  then match hexToBytes val with
       | Normal out => out
       | Abrupt _ => utf8_encode val      (* fallthrough to utf-8 *)
       end
  else utf8_encode val.

(** Lower-case hexadecimal text of a byte sequence, two digits per byte. *)
Definition hex_digit (n : N) : ascii :=
  if (n <? 10)%N then ascii_of_N (48 + n) else ascii_of_N (87 + n).

Fixpoint bytesToHex (l : list byte) : string :=
  match l with
  | [] => ""
  | b :: r =>
      let n := Byte.to_N b in
      String (hex_digit (n / 16)) (String (hex_digit (n mod 16)) (bytesToHex r))
  end.

(** ** Requests, configuration and the static tables *)

Record BridgeParams : Type := mkParams {
  userAddress : string;
  fromToken : string;
  destToken : string;
  amount : float;
  destChain : string;
  recipientAddress : string
}.

Record BridgeConfig : Type := mkConfig {
  contractId : string;
  network : string;
  rpcUrl : string;
  networkPassphrase : string
}.

Definition BRIDGE_CONTRACT : string :=
  "CDTA5IYGUGRI4PAGXJL7TPBEIC3EZY6V23ILF5EDVXFVLCGGMVOK4CRL".

(** [getBridgeConfig] *)
Definition getBridgeConfig (network : string) : BridgeConfig :=
  let isTestnet := negb (network =? "stellar-mainnet")%string in
  {| contractId := BRIDGE_CONTRACT;
     network := if isTestnet then "testnet" else "mainnet";
     rpcUrl := if isTestnet then "https://soroban-testnet.stellar.org"
               else "https://soroban-mainnet.stellar.org";
     networkPassphrase :=
       if isTestnet then "Test SDF Network ; September 2015"
       else "Public Global Stellar Network ; September 2015" |}.

(** [getChainName].  The lookup object's own keys are the two chain ids;
    keys it inherits from [Object.prototype] are not modelled (the service
    calls this on validated chain ids). *)
Definition getChainName (chainId : string) : string :=
  if (chainId =? "17000")%string then "Holsky Testnet"
  else if (chainId =? "8453")%string then "Base Mainnet"
  else "Chain " ++ chainId.

(** [getChainExplorerUrl], with the same lookup. *)
Definition getChainExplorerUrl (chainId txHash : string) : string :=
  if (chainId =? "17000")%string then "https://holesky.etherscan.io/tx/" ++ txHash
  else if (chainId =? "8453")%string then "https://basescan.org/tx/" ++ txHash
  else "#" ++ txHash.

(** [getSupportedTokens]: symbol, name and the chains of each token. *)
Definition getSupportedTokens : list (string * string * list string) :=
  [ ("HOLSKEY", "Holskey Token", ["17000"]);
    ("BASE", "Base Token", ["8453"]) ].

(** [getSupportedChains]: id, name and symbol (the icon is presentation). *)
Definition getSupportedChains : list (string * string * string) :=
  [ ("17000", "Holsky Testnet", "ETH"); ("8453", "Base Mainnet", "ETH") ].

(** [getSupportedSourceTokens] *)
Definition getSupportedSourceTokens : list (string * string * string) :=
  [ ("XLM", "Stellar Lumens", "native") ].

(** ** The parameter validator *)

(** The test [recipientAddress.match(/^0x[a-fA-F0-9]{40}$/)]. *)
Definition is_evm_address (s : string) : bool :=
  match s with
  | String a (String b r) =>
      (a =? "0")%char && (b =? "x")%char
      && (String.length r =? 40)%nat && JsString.all JsString.is_hex r
  | _ => false
  end.

(** [validateBridgeParams]: [None] is the source's [null]. *)
Definition validateBridgeParams (params : BridgeParams) : option string :=
  if negb (truthy (userAddress params)) then
    Some "User address is required"
  else if negb (truthy (fromToken params))
          || negb (fromToken params =? "XLM")%string then
    Some "Only XLM token is supported"
  else if negb (truthy (destToken params))
          || (negb (destToken params =? "HOLSKEY")%string
              && negb (destToken params =? "BASE")%string) then
    Some "Only HOLSKEY and BASE tokens are supported"
  else if negb (truthy_number (amount params))
          || PrimFloat.leb (amount params) 0%float then
    Some "Amount must be greater than 0"
  else if negb (truthy (destChain params))
          || (negb (destChain params =? "17000")%string
              && negb (destChain params =? "8453")%string) then
    Some "Only Holsky Testnet (17000) and Base Mainnet (8453) are supported"
  else if negb (truthy (recipientAddress params)) then
    Some "Recipient address is required"
  else if ((destChain params =? "17000")%string
           || (destChain params =? "8453")%string)
          && negb (is_evm_address (recipientAddress params)) then
    let chainName :=
      if (destChain params =? "17000")%string then "Holsky Testnet"
      else "Base Mainnet" in
    Some ("Invalid recipient address format for " ++ chainName)
  else None.


(** ** The remote interfaces *)

(** What awaiting a promise gives. *)
Inductive Settled (A : Type) : Type :=
| Resolved (a : A)
| Rejected (e : JsError).
Arguments Resolved {A} a.
Arguments Rejected {A} e.

(** The backend canister's [Result = variant { Ok : text; Err : text }]. *)
Inductive CandidResult : Type :=
| Ok (text : string)
| Err (text : string).

(** A [fetch] response as far as the source reads it: [ok], [status] and
    the promise of [json()]. *)
Record HttpResponse (B : Type) : Type := mkHttp {
  ok : bool;
  status : Z;
  json : Settled B
}.
Arguments mkHttp {B}.
Arguments ok {B}.
Arguments status {B}.
Arguments json {B}.

(** [AccountData]; the entries of [balances] are never inspected. *)
Record AccountData : Type := mkAccountData {
  sequence : string;
  balances : list string
}.

(** The body of Horizon's [/transactions/{hash}]: its [ledger] property,
    [None] when the body has none. *)
Record TransactionRecord : Type := mkTxRecord { ledger : option Z }.

(** The account object the Soroban RPC's [getAccount] returns.  The SDK
    makes it from the account's ledger entry, whose sequence number is a
    64-bit integer; the object holds it as a big number. *)
Record Account : Type := mkAccount {
  accountId : string;
  sequenceNumber : N
}.

(** The arguments of the contract call, as [nativeToScVal] tags them. *)
Inductive ScVal : Type :=
| scvAddress (a : string)
| scvString (s : string)
| scvI128 (digits : string)
| scvBytes (b : list byte).

Record Operation : Type := mkOperation {
  op_contract : string;
  op_method : string;
  op_args : list ScVal
}.

(** The transaction envelope of the SDK, which is not part of the
    repository, as far as the service determines it: the source account,
    the sequence number, the fee, the network passphrase, the operations
    and the timeout given to the builder.  [tx_soroban] is the resource
    data the simulate/prepare step attaches, [None] before it. *)
Record Transaction : Type := mkTransaction {
  tx_source : string;
  tx_sequence : N;
  tx_fee : string;
  tx_networkPassphrase : string;
  tx_operations : list Operation;
  tx_timeout : Z;
  tx_soroban : option string
}.

(** The SDK's
    [new TransactionBuilder(account, { fee, networkPassphrase })
       .addOperation(op).setTimeout(timeout).build()]:
    the envelope names the account as its source and carries the account's
    sequence number plus one.  ([build] also increments the account
    object; the service does not use the object again.) *)
Definition TransactionBuilder_build (account : Account)
  (fee networkPassphrase : string) (op : Operation) (timeout : Z)
  : Transaction :=
  {| tx_source := accountId account;
     tx_sequence := N.succ (sequenceNumber account);
     tx_fee := fee;
     tx_networkPassphrase := networkPassphrase;
     tx_operations := [op];
     tx_timeout := timeout;
     tx_soroban := None |}.

(** What the SDK's [prepareTransaction] takes from the simulation: the fee
    with the resource fee added, and the resource data. *)
Record Simulation : Type := mkSimulation {
  sim_fee : string;
  sim_soroban : string
}.

(** The transaction [prepareTransaction] resolves with: a copy of the one
    it was given, same source, sequence number, passphrase, operations and
    timeout, with the fee and the resource data of the simulation. *)
Definition assembleTransaction (tx : Transaction) (sim : Simulation)
  : Transaction :=
  {| tx_source := tx_source tx;
     tx_sequence := tx_sequence tx;
     tx_fee := sim_fee sim;
     tx_networkPassphrase := tx_networkPassphrase tx;
     tx_operations := tx_operations tx;
     tx_timeout := tx_timeout tx;
     tx_soroban := Some (sim_soroban sim) |}.

(** The SDK's [toXDR]/[fromXDR] are a lossless encoding of the envelope;
    an XDR document is represented by the envelope it encodes. *)
Definition Xdr : Type := Transaction.

(** The SDK's [BASE_FEE]. *)
Definition BASE_FEE : string := "100".

(** The calls the service makes to the outside, each with the type of what
    it gives back.  The caller's observer returns or throws.  A call of an
    actor method is [Rejected] when the promise is rejected and also when
    the call itself throws, as it does with a [TypeError] on an actor that
    does not have the method: inside a [try] the two are caught alike. *)
Inductive Call : Type -> Type :=
| OnProgress (progress : Z) : Call (Completion unit)
| FetchAccount (url : string) : Call (Settled (HttpResponse AccountData))
| GetNetwork (rpc : string) : Call (Settled string)
| GetAccount (rpc : string) (address : string) : Call (Settled Account)
| PrepareTransaction (rpc : string) (tx : Transaction)
  : Call (Settled Simulation)
| StellarUserLockTxn (xdr : Xdr) (net : string) : Call (Settled CandidResult)
| FetchTransaction (url : string)
  : Call (Settled (HttpResponse TransactionRecord))
| SetTimeout (ms : Z) : Call unit
| FetchStellarEvents (ledgerNumber : option Z) (chain : string)
  : Call (Settled CandidResult)
| SignTransactionStellar (user : string) (xdr : Xdr) (net : string)
  : Call (Settled CandidResult)
| SubmitTransaction (signed : string) (net : string)
  : Call (Settled CandidResult)
| DateNow : Call string.

(** The two globals the service keeps on [window]; [""] is [undefined]. *)
Record Window : Type := mkWindow {
  holeskyTxHash : string;
  holeskyExplorerUrl : string
}.

(** ** Programs *)

Inductive Prog (R : Type) : Type :=
| Ret (r : R)
| Throw (e : JsError)
| Do {X : Type} (c : Call X) (k : X -> Prog R)
| GetWindow (k : Window -> Prog R)
| SetWindow (w : Window) (k : Prog R).
Arguments Ret {R} r.
Arguments Throw {R} e.
Arguments Do {R X} c k.
Arguments GetWindow {R} k.
Arguments SetWindow {R} w k.

Fixpoint bind {A B : Type} (p : Prog A) (f : A -> Prog B) : Prog B :=
  match p with
  | Ret a => f a
  | Throw e => Throw e
  | Do c k => Do c (fun x => bind (k x) f)
  | GetWindow k => GetWindow (fun w => bind (k w) f)
  | SetWindow w k => SetWindow w (bind k f)
  end.

(** [try { p } catch (error) { handler error }] *)
Fixpoint try_catch {A : Type} (p : Prog A) (handler : JsError -> Prog A)
  : Prog A :=
  match p with
  | Ret a => Ret a
  | Throw e => handler e
  | Do c k => Do c (fun x => try_catch (k x) handler)
  | GetWindow k => GetWindow (fun w => try_catch (k w) handler)
  | SetWindow w k => SetWindow w (try_catch k handler)
  end.

Declare Scope prog_scope.
Delimit Scope prog_scope with prog.
Notation "x <- p ;; q" := (bind p (fun x => q))
  (at level 61, p at next level, right associativity) : prog_scope.
Notation "p ;; q" := (bind p (fun _ => q))
  (at level 61, right associativity) : prog_scope.
Local Open Scope prog_scope.

(** [await call]: a rejected promise throws. *)
Definition await {A : Type} (c : Call (Settled A)) : Prog A :=
  Do c (fun r => match r with
                 | Resolved a => Ret a
                 | Rejected e => Throw e
                 end).

Definition perform (c : Call unit) : Prog unit := Do c (fun _ => Ret tt).

(** A pure expression that may throw. *)
Definition lift {A : Type} (c : Completion A) : Prog A :=
  match c with
  | Normal a => Ret a
  | Abrupt e => Throw e
  end.

(** A constructor call that yields nothing the caller reads: [None] when it
    returns, [Some msg] when it throws an error with message [msg]. *)
Definition construct (r : option string) : Prog unit :=
  match r with
  | None => Ret tt
  | Some msg => Throw (Error msg)
  end.

(** [onProgress?.(n)]: a call of the observer when the caller gave one;
    what the observer throws, the call throws. *)
Definition emit (onProgress : bool) (n : Z) : Prog unit :=
  if onProgress then Do (OnProgress n) (fun r => lift r) else Ret tt.

(** ** Running a program against the outside world *)

(** One call and what came back. *)
Inductive Event : Type :=
| Ev {X : Type} (c : Call X) (x : X).

(** The outside world answers each call, knowing every call made so far
    and what it answered. *)
Definition World : Type := forall X : Type, list Event -> Call X -> X.

Inductive Outcome (R : Type) : Type :=
| Returned (r : R)
| Threw (e : JsError).
Arguments Returned {R} r.
Arguments Threw {R} e.

Record Run (R : Type) : Type := mkRun {
  trace : list Event;
  window : Window;
  outcome : Outcome R
}.
Arguments mkRun {R}.
Arguments trace {R}.
Arguments window {R}.
Arguments outcome {R}.

Fixpoint run {R : Type} (world : World) (past : list Event) (win : Window)
  (p : Prog R) : Run R :=
  match p with
  | Ret r => mkRun past win (Returned r)
  | Throw e => mkRun past win (Threw e)
  | Do c k =>
      let x := world _ past c in run world (past ++ [Ev c x])%list win (k x)
  | GetWindow k => run world past win (k win)
  | SetWindow w k => run world past w k
  end.

(** ** The SDK and the JavaScript runtime *)

(** A parsed JSON document as far as the source reads it: [null], on which
    a property access throws, or any other value with its [hash] property
    ([""] when it has none). *)
Inductive JsonValue : Type :=
| JsonNull
| JsonWithHash (hash : string).

(** [value.hash] *)
Definition get_hash (v : JsonValue) : Completion string :=
  match v with
  | JsonNull =>
      Abrupt (mkError "TypeError"
                "Cannot read properties of null (reading 'hash')")
  | JsonWithHash h => Normal h
  end.

(** The pure functions of [@stellar/stellar-sdk] and of the runtime that
    the service calls; they are not part of the repository. *)
Record Platform : Type := mkPlatform {
  (** [new Address(s)]: [None] when it constructs, else the message of the
      error it throws. *)
  Address_new : string -> option string;
  (** [new Contract(id)], likewise. *)
  Contract_new : string -> option string;
  (** [Asset.native().contractId(networkPassphrase)] *)
  native_contractId : string -> string;
  (** [nativeToScVal(s, { type: "i128" })]: [None] when it converts. *)
  i128_new : string -> option string;
  (** [Math.floor] *)
  Math_floor : float -> float;
  (** [Number.prototype.toString] *)
  Number_toString : float -> string;
  (** [JSON.parse] *)
  JSON_parse : string -> Completion JsonValue
}.

(** Decimal text of an integer, as a template literal prints it. *)
Definition Z_toString (z : Z) : string := NilZero.string_of_int (Z.to_int z).

(** ** Results *)

Record ContractDetails : Type := mkContractDetails {
  cd_contractId : string;
  cd_sequenceNumber : string;
  cd_network : string;
  cd_userAddress : string;
  cd_transactionXDR : option Xdr;
  cd_lockHash : option string
}.

Record BridgeDetails : Type := mkBridgeDetails {
  bd_fromChain : string;
  bd_toChain : string;
  bd_amount : string;
  bd_token : string;
  bd_recipient : string;
  bd_contractExecution : option bool
}.

Record BridgeResult : Type := mkBridgeResult {
  success : bool;
  hash : string;
  message : string;
  explorer_url : string;
  contractDetails : option ContractDetails;
  bridgeDetails : BridgeDetails
}.

Record CallParameters : Type := mkCallParameters {
  cp_user : string;
  cp_fromToken : string;
  cp_destToken : string;
  cp_amount : float;
  cp_destChain : string;
  cp_recipientAddress : string
}.

Record ContractCall : Type := mkContractCall {
  cc_contractId : string;
  cc_method : string;
  cc_parameters : CallParameters
}.

Record NetworkConfig : Type := mkNetworkConfig {
  nc_network : string;
  nc_networkPassphrase : string;
  nc_rpcUrl : string
}.

(** [TransactionBuildResult]; an absent optional field is [false]/[None]. *)
Record TransactionBuildResult : Type := mkBuildResult {
  transaction : Transaction;
  transactionXDR : Xdr;
  contractCall : ContractCall;
  networkConfig : NetworkConfig;
  bridgeCompleted : bool;
  br_holeskyTxHash : option string;
  lockTxHash : option string
}.

(** ** [StellarBridgeService] *)

(** The constructor's argument: [None] is a key the object does not have. *)
Record ServiceOptions : Type := mkServiceOptions {
  opt_rpcUrl : option string;
  opt_defaultBridge : option string;
  opt_defaultUser : option string
}.

Record ServiceConfig : Type := mkServiceConfig {
  svc_rpcUrl : string;
  svc_defaultBridge : string;
  svc_defaultUser : option string
}.

Definition or_default (o : option string) (d : string) : string :=
  match o with
  | Some v => or_else v d
  | None => d
  end.

(** The constructor: the three defaulted fields, then the spread
    [...config], which writes every key of [config] over them.  The
    [rpc.Server] it creates is represented by its URL. *)
Definition StellarBridgeService (config : ServiceOptions) : ServiceConfig :=
  let rpcUrl0 := or_default (opt_rpcUrl config) "https://soroban-testnet.stellar.org" in
  let defaultBridge0 := or_default (opt_defaultBridge config) BRIDGE_CONTRACT in
  {| svc_rpcUrl := match opt_rpcUrl config with Some v => v | None => rpcUrl0 end;
     svc_defaultBridge :=
       match opt_defaultBridge config with Some v => v | None => defaultBridge0 end;
     svc_defaultUser := opt_defaultUser config |}.

(** The argument of [createLockTransactionXDR]: [None] is a missing key
    (the destructuring default applies); [lp_fromToken] is [None] for both
    [null] and a missing key, which the source treats alike. *)
Record LockParams : Type := mkLockParams {
  lp_bridgeId : option string;
  lp_userAddress : string;
  lp_destToken : option string;
  lp_inAmount : option string;
  lp_recipient : option string;
  lp_destChain : option string;
  lp_fromToken : option string
}.

Record LockMetadata : Type := mkLockMetadata {
  md_rpc : string;
  md_networkPassphrase : string;
  md_source : string;
  md_bridgeContract : string;
  md_fromToken : string;
  md_destToken : string;
  md_inAmount : string;
  md_destChainBytesLen : nat;
  md_recipient : string
}.

Record LockXdr : Type := mkLockXdr { xdr : Xdr; metadata : LockMetadata }.

Definition with_default (o : option string) (d : string) : string :=
  match o with Some v => v | None => d end.

Section Service.

Variable pf : Platform.

(** [validateAddress] *)
Definition validateAddress (address name : string) : Prog bool :=
  match Address_new pf address with
  | None => Ret true
  | Some msg =>
      Throw (Error ("Invalid " ++ name ++ ": " ++ address ++ " - " ++ msg))
  end.

(** [createLockTransactionXDR] *)
Definition createLockTransactionXDR (this : ServiceConfig)
  (params : LockParams) : Prog LockXdr :=
  let bridgeId := with_default (lp_bridgeId params) (svc_defaultBridge this) in
  let userAddress := lp_userAddress params in
  let destToken := with_default (lp_destToken params) "native" in
  let inAmount := with_default (lp_inAmount params) "17000" in
  let recipient :=
    with_default (lp_recipient params)
      "0x742d35Cc6634C0532925a3b8D29435B7b6c8ceB3" in
  let destChain := with_default (lp_destChain params) "10" in
  let fromToken := lp_fromToken params in
  if negb (truthy userAddress) then Throw (Error "userAddress is required")
  else
    validateAddress userAddress "userAddress" ;;
    validateAddress bridgeId "bridgeId" ;;
    networkPassphrase <- await (GetNetwork (svc_rpcUrl this)) ;;
    account <- await (GetAccount (svc_rpcUrl this) userAddress) ;;
    let fromTokenAddr :=
      or_default fromToken (native_contractId pf networkPassphrase) in
    construct (Contract_new pf bridgeId) ;;
    construct (Address_new pf userAddress) ;;
    construct (Address_new pf fromTokenAddr) ;;
    construct (i128_new pf inAmount) ;;
    let destChainBytes := toBytes destChain in
    let op :=
      {| op_contract := bridgeId;
         op_method := "lock";
         op_args := [ scvAddress userAddress;
                      scvAddress fromTokenAddr;
                      scvString destToken;
                      scvI128 inAmount;
                      scvBytes destChainBytes;
                      scvString recipient ] |} in
    let tx :=
      TransactionBuilder_build account BASE_FEE networkPassphrase op 300 in
    simulation <- await (PrepareTransaction (svc_rpcUrl this) tx) ;;
    let prepared := assembleTransaction tx simulation in
    Ret {| xdr := prepared;
           metadata :=
             {| md_rpc := svc_rpcUrl this;
                md_networkPassphrase := networkPassphrase;
                md_source := userAddress;
                md_bridgeContract := bridgeId;
                md_fromToken := fromTokenAddr;
                md_destToken := destToken;
                md_inAmount := inAmount;
                md_destChainBytesLen := List.length destChainBytes;
                md_recipient := recipient |} |}.

(** [getAccountData]; its [catch] logs and rethrows the same error. *)
Definition getAccountData (address net : string) : Prog AccountData :=
  let horizonUrl :=
    if (net =? "mainnet")%string then "https://horizon.stellar.org"
    else "https://horizon-testnet.stellar.org" in
  try_catch
    (response <- await (FetchAccount (horizonUrl ++ "/accounts/" ++ address)) ;;
     if negb (ok response) then
       if (status response =? 404)%Z then
         Throw (Error "Account not found. Please fund your account first.")
       else
         Throw (Error ("Failed to fetch account data: "
                       ++ Z_toString (status response)))
     else
       accountData <- lift (match json response with
                            | Resolved d => Normal d
                            | Rejected e => Abrupt e
                            end) ;;
       Ret {| sequence := sequence accountData;
              balances := balances accountData |})
    (fun error => Throw error).

(** [buildLockTransaction] (the legacy function): no call, no failure. *)
Definition buildLockTransaction (params : BridgeParams)
  (config : BridgeConfig) : Prog (ContractCall * NetworkConfig) :=
  let contractCall :=
    {| cc_contractId := contractId config;
       cc_method := "lock";
       cc_parameters :=
         {| cp_user := userAddress params;
            cp_fromToken := fromToken params;
            cp_destToken := destToken params;
            cp_amount := amount params;
            cp_destChain := destChain params;
            cp_recipientAddress := recipientAddress params |} |} in
  Ret (contractCall,
       {| nc_network := network config;
          nc_rpcUrl := rpcUrl config;
          nc_networkPassphrase := networkPassphrase config |}).

(** The object both [return]s of [buildStellarTransaction] share. *)
Definition build_result (params : BridgeParams) (config : BridgeConfig)
  (result : LockXdr) (amountStroops : float) (completed : bool)
  (releaseHash lockHash : option string) : TransactionBuildResult :=
  {| transaction := xdr result;
     transactionXDR := xdr result;
     contractCall :=
       {| cc_contractId := contractId config;
          cc_method := "lock";
          cc_parameters :=
            {| cp_user := userAddress params;
               cp_fromToken := md_fromToken (metadata result);
               cp_destToken := destToken params;
               cp_amount := amountStroops;
               cp_destChain := destChain params;
               cp_recipientAddress := recipientAddress params |} |};
     networkConfig :=
       {| nc_network := network config;
          nc_networkPassphrase := md_networkPassphrase (metadata result);
          nc_rpcUrl := rpcUrl config |};
     bridgeCompleted := completed;
     br_holeskyTxHash := releaseHash;
     lockTxHash := lockHash |}.

(** The inner [try] of [buildStellarTransaction], entered once the lock
    call gave a hash: [Some] is its [return], [None] is falling out of
    it.  The enclosing [catch] only logs. *)
Definition index_and_release (params : BridgeParams) (config : BridgeConfig)
  (result : LockXdr) (amountStroops : float) (txHash : string)
  (onProgress : bool) : Prog (option TransactionBuildResult) :=
  try_catch
    (let horizonUrl :=
       "https://horizon-testnet.stellar.org/transactions/" ++ txHash in
     txResponse <- await (FetchTransaction horizonUrl) ;;
     txData <- lift (match json txResponse with
                     | Resolved d => Normal d
                     | Rejected e => Abrupt e
                     end) ;;
     let ledgerNumber := ledger txData in
     emit onProgress 50 ;;
     perform (SetTimeout 8000) ;;
     release_tnx <- await (FetchStellarEvents ledgerNumber (destChain params)) ;;
     match release_tnx with
     | Ok text =>
         let holeskyTxHash := JsString.trim text in
         if truthy holeskyTxHash && JsString.startsWith "0x" holeskyTxHash
         then
           emit onProgress 70 ;;
           emit onProgress 90 ;;
           let explorerUrl :=
             getChainExplorerUrl (destChain params) holeskyTxHash in
           SetWindow {| holeskyTxHash := holeskyTxHash;
                        holeskyExplorerUrl := explorerUrl |}
             (emit onProgress 100 ;;
              Ret (Some (build_result params config result amountStroops
                           true (Some holeskyTxHash) (Some txHash))))
         else Ret None
     | Err _ => Ret None
     end)
    (fun _ => Ret None).

(** [buildStellarTransaction]; [actor] and [onProgress] say whether the
    optional arguments were given.  [accountData] is only logged. *)
Definition buildStellarTransaction (params : BridgeParams)
  (config : BridgeConfig) (accountData : AccountData) (actor : bool)
  (onProgress : bool) : Prog TransactionBuildResult :=
  try_catch
    (let bridgeService :=
       StellarBridgeService
         {| opt_rpcUrl := Some (rpcUrl config);
            opt_defaultBridge := Some (contractId config);
            opt_defaultUser := None |} in
     let amountStroops :=
       Math_floor pf (PrimFloat.mul (amount params) 10000000%float) in
     result <- createLockTransactionXDR bridgeService
                 {| lp_bridgeId := Some (contractId config);
                    lp_userAddress := userAddress params;
                    lp_destToken := Some (destToken params);
                    lp_inAmount := Some (Number_toString pf amountStroops);
                    lp_recipient := Some (recipientAddress params);
                    lp_destChain := Some (destChain params);
                    lp_fromToken := None |} ;;
     let plain :=
       Ret (build_result params config result amountStroops false None None) in
     if actor then
       emit onProgress 30 ;;
       lock_txn <- await (StellarUserLockTxn (xdr result) (network config)) ;;
       match lock_txn with
       | Ok text =>
           responseData <- lift (JSON_parse pf text) ;;
           txHash <- lift (get_hash responseData) ;;
           if truthy txHash then
             emit onProgress 40 ;;
             released <- index_and_release params config result
                           amountStroops txHash onProgress ;;
             match released with
             | Some completed => Ret completed
             | None => plain
             end
           else plain
       | Err _ => plain
       end
     else plain)
    (fun error =>
       Throw (Error ("Failed to build transaction: " ++ err_message error))).

(** The result of the path that ends inside [buildStellarTransaction]. *)
Definition completed_result (params : BridgeParams)
  (accountData : AccountData) (buildResult : TransactionBuildResult)
  (holeskyTxHash : string) : BridgeResult :=
  {| success := true;
     hash := holeskyTxHash;
     message := "Bridge transaction completed successfully";
     explorer_url := getChainExplorerUrl (destChain params) holeskyTxHash;
     contractDetails :=
       Some {| cd_contractId := cc_contractId (contractCall buildResult);
               cd_sequenceNumber := sequence accountData;
               cd_network := nc_network (networkConfig buildResult);
               cd_userAddress := userAddress params;
               cd_transactionXDR := Some (transactionXDR buildResult);
               cd_lockHash := lockTxHash buildResult |};
     bridgeDetails :=
       {| bd_fromChain := "Stellar";
          bd_toChain := getChainName (destChain params);
          bd_amount := Number_toString pf (amount params);
          bd_token := destToken params;
          bd_recipient := recipientAddress params;
          bd_contractExecution := Some true |} |}.

(** The result of the sign-and-submit path, given its [hash] and
    [explorer_url]. *)
Definition submitted_result (params : BridgeParams)
  (accountData : AccountData) (buildResult : TransactionBuildResult)
  (win : Window) (resultHash explorerUrl : string) : BridgeResult :=
  {| success := true;
     hash := resultHash;
     message :=
       if truthy (holeskyTxHash win)
       then "Bridge transaction completed successfully"
       else "Soroban lock contract executed successfully";
     explorer_url := explorerUrl;
     contractDetails :=
       Some {| cd_contractId := cc_contractId (contractCall buildResult);
               cd_sequenceNumber := sequence accountData;
               cd_network := nc_network (networkConfig buildResult);
               cd_userAddress := userAddress params;
               cd_transactionXDR := Some (transactionXDR buildResult);
               cd_lockHash := None |};
     bridgeDetails :=
       {| bd_fromChain := "Stellar";
          bd_toChain := getChainName (destChain params);
          bd_amount := Number_toString pf (amount params);
          bd_token := destToken params;
          bd_recipient := recipientAddress params;
          bd_contractExecution := Some true |} |}.

(** [holeskyTxHash || submissionResponse.hash || `stellar_tx_${Date.now()}`] *)
Definition submitted_hash (win : Window) (submissionResponse : JsonValue)
  : Prog string :=
  if truthy (holeskyTxHash win) then Ret (holeskyTxHash win)
  else
    submissionHash <- lift (get_hash submissionResponse) ;;
    if truthy submissionHash then Ret submissionHash
    else now <- Do DateNow (fun t => Ret t) ;;
         Ret ("stellar_tx_" ++ now).

(** [holeskyExplorerUrl || `https://stellar.expert/explorer/...`] *)
Definition submitted_explorer_url (win : Window) (config : BridgeConfig)
  (submissionResponse : JsonValue) : Prog string :=
  if truthy (holeskyExplorerUrl win) then Ret (holeskyExplorerUrl win)
  else
    submissionHash <- lift (get_hash submissionResponse) ;;
    Ret ("https://stellar.expert/explorer/" ++ network config ++ "/tx/"
         ++ or_else submissionHash "demo").

(** The backend branch of [executeBridgeTransaction]: sign, then submit. *)
Definition sign_and_submit (params : BridgeParams) (net : string)
  (config : BridgeConfig) (accountData : AccountData)
  (buildResult : TransactionBuildResult) (onProgress : bool)
  : Prog BridgeResult :=
  try_catch
    (emit onProgress 60 ;;
     signResult <- await (SignTransactionStellar (userAddress params)
                            (transactionXDR buildResult) net) ;;
     emit onProgress 80 ;;
     match signResult with
     | Ok signed =>
         emit onProgress 90 ;;
         submitResult <- await (SubmitTransaction signed net) ;;
         match submitResult with
         | Ok text =>
             submissionResponse <- lift (JSON_parse pf text) ;;
             emit onProgress 100 ;;
             GetWindow (fun win =>
               resultHash <- submitted_hash win submissionResponse ;;
               explorerUrl <-
                 submitted_explorer_url win config submissionResponse ;;
               Ret (submitted_result params accountData buildResult
                      win resultHash explorerUrl))
         | Err text =>
             Throw (Error ("Transaction submission failed: " ++ text))
         end
     | Err text => Throw (Error ("Transaction signing failed: " ++ text))
     end)
    (fun error =>
       Throw (Error ("Transaction signing/submission failed: "
                     ++ message_or_error error))).

(** The release hash under the test [bridgeCompleted && holeskyTxHash]. *)
Definition completed_hash (buildResult : TransactionBuildResult)
  : option string :=
  if bridgeCompleted buildResult then
    match br_holeskyTxHash buildResult with
    | Some h => if truthy h then Some h else None
    | None => None
    end
  else None.

(** [executeBridgeTransaction] *)
Definition executeBridgeTransaction (params : BridgeParams) (net : string)
  (onProgress : bool) (actor : bool) : Prog BridgeResult :=
  match validateBridgeParams params with
  | Some validationError => Throw (Error validationError)
  | None =>
      let config := getBridgeConfig net in
      emit onProgress 10 ;;
      emit onProgress 25 ;;
      _ <- buildLockTransaction params config ;;
      try_catch
        (emit onProgress 30 ;;
         accountData <- getAccountData (userAddress params) (network config) ;;
         emit onProgress 40 ;;
         buildResult <- buildStellarTransaction params config accountData
                          actor onProgress ;;
         emit onProgress 25 ;;
         match completed_hash buildResult with
         | Some holeskyTxHash =>
             Ret (completed_result params accountData buildResult
                    holeskyTxHash)
         | None =>
             if actor
             then sign_and_submit params net config accountData
                    buildResult onProgress
             else Throw (Error "Backend not available for transaction signing")
         end)
        (fun error =>
           Throw (Error ("Transaction building failed: "
                         ++ message_or_error error)))
  end.

End Service.

(** ** The SDK's address check, for the examples *)

Module StrKey.

(** The value of a character of the base-32 alphabet [A-Z2-7]. *)
Definition base32_digit (c : ascii) : option N :=
  let n := N_of_ascii c in
  if ((65 <=? n) && (n <=? 90))%N then Some (n - 65)%N
  else if ((50 <=? n) && (n <=? 55))%N then Some (n - 24)%N
  else None.

(** The number a base-32 text writes, most significant digit first. *)
Fixpoint base32_value (s : string) (acc : N) : option N :=
  match s with
  | EmptyString => Some acc
  | String c r =>
      match base32_digit c with
      | Some d => base32_value r (32 * acc + d)%N
      | None => None
      end
  end.

(** The [count] bytes of [v], most significant first. *)
Definition bytes_of (count : nat) (v : N) : list N :=
  map (fun i => N.land (N.shiftr v (8 * N.of_nat (count - 1 - i))) 255)
    (seq 0 count).

Definition crc16_bit (crc : N) : N :=
  if N.testbit crc 15
  then N.land (N.lxor (N.shiftl crc 1) 4129) 65535
  else N.land (N.shiftl crc 1) 65535.

(** CRC16-XModem: polynomial 0x1021, initial value 0. *)
Definition crc16 (bytes : list N) : N :=
  fold_left (fun crc b => Nat.iter 8 crc16_bit (N.lxor crc (N.shiftl b 8)))
    bytes 0%N.

(** A key in the SDK's text form: 56 base-32 characters that write 35
    bytes, the version byte, the 32 bytes of the key and the CRC16 of
    these 33, low byte first. *)
Definition is_valid (version : N) (s : string) : bool :=
  (String.length s =? 56)%nat
  && match base32_value s 0 with
     | Some v =>
         let raw := bytes_of 35 v in
         (nth 0 raw 0 =? version)%N
         && (crc16 (firstn 33 raw) =? nth 33 raw 0 + 256 * nth 34 raw 0)%N
     | None => false
     end.

(** [StrKey.isValidEd25519PublicKey]: the keys that start with [G]. *)
Definition isValidEd25519PublicKey : string -> bool := is_valid 48.

(** [StrKey.isValidContract]: the keys that start with [C]. *)
Definition isValidContract : string -> bool := is_valid 16.

End StrKey.

(** ** JSON texts, for the examples *)

(** The double quote. *)
Definition quote : string := String (ascii_of_nat 34) "".

(** The JSON text of an object whose one property is [hash]. *)
Definition hash_document (h : string) : string :=
  "{" ++ quote ++ "hash" ++ quote ++ ":" ++ quote ++ h ++ quote ++ "}".

(** [s] without the prefix [p], when it starts with it. *)
Fixpoint strip_prefix (p s : string) : option string :=
  match p, s with
  | EmptyString, _ => Some s
  | String a p', String b s' =>
      if (b =? a)%char then strip_prefix p' s' else None
  | String _ _, EmptyString => None
  end.

(** The characters of a JSON string up to its closing quote, and what
    follows the quote; [None] when there is no closing quote or an escape
    comes first. *)
Fixpoint string_body (s : string) : option (string * string) :=
  match s with
  | EmptyString => None
  | String c r =>
      if (c =? ascii_of_nat 34)%char then Some ("", r)
      else if (c =? ascii_of_nat 92)%char then None
      else match string_body r with
           | Some (body, rest) => Some (String c body, rest)
           | None => None
           end
  end.

(** [JSON.parse] on the texts of the examples: [null], an object whose one
    property is [hash], written without white space or escapes, and texts
    that are not JSON. *)
Definition parse_hash_document (text : string) : Completion JsonValue :=
  if (text =? "null")%string then Normal JsonNull
  else
    match strip_prefix ("{" ++ quote ++ "hash" ++ quote ++ ":" ++ quote) text
    with
    | Some rest =>
        match string_body rest with
        | Some (h, "}") => Normal (JsonWithHash h)
        | _ => Abrupt (mkError "SyntaxError" "Unexpected end of JSON input")
        end
    | None => Abrupt (mkError "SyntaxError" "Unexpected token in JSON")
    end.

(** ** Scripted worlds and a sample platform, for the examples *)

(** A world that answers every call of a kind the same way; the observer
    is answered by the value it is given. *)
Record Script : Type := mkScript {
  on_OnProgress : Z -> Completion unit;
  on_FetchAccount : Settled (HttpResponse AccountData);
  on_GetNetwork : Settled string;
  on_GetAccount : Settled Account;
  on_PrepareTransaction : Settled Simulation;
  on_StellarUserLockTxn : Settled CandidResult;
  on_FetchTransaction : Settled (HttpResponse TransactionRecord);
  on_FetchStellarEvents : Settled CandidResult;
  on_SignTransactionStellar : Settled CandidResult;
  on_SubmitTransaction : Settled CandidResult;
  on_DateNow : string
}.

Definition scripted (s : Script) : World :=
  fun X _ c =>
    match c in Call X return X with
    | OnProgress n => on_OnProgress s n
    | FetchAccount _ => on_FetchAccount s
    | GetNetwork _ => on_GetNetwork s
    | GetAccount _ _ => on_GetAccount s
    | PrepareTransaction _ _ => on_PrepareTransaction s
    | StellarUserLockTxn _ _ => on_StellarUserLockTxn s
    | FetchTransaction _ => on_FetchTransaction s
    | SetTimeout _ => tt
    | FetchStellarEvents _ _ => on_FetchStellarEvents s
    | SignTransactionStellar _ _ _ => on_SignTransactionStellar s
    | SubmitTransaction _ _ => on_SubmitTransaction s
    | DateNow => on_DateNow s
    end.

(** A platform that agrees with the SDK and the runtime on the values the
    examples use.  [new Address] takes an account key or a contract key
    and [new Contract] a contract key, each checked as the SDK's [StrKey]
    checks it; the native asset's contract is the one of the test network
    and of the public network; the amounts are whole numbers; and the JSON
    texts are those of [parse_hash_document]. *)
Definition sample_platform : Platform :=
  {| Address_new := fun s =>
       if StrKey.isValidEd25519PublicKey s || StrKey.isValidContract s
       then None
       else Some ("Unsupported address type: " ++ s);
     Contract_new := fun s =>
       if StrKey.isValidContract s then None
       else Some ("Invalid contract ID: " ++ s);
     native_contractId := fun passphrase =>
       if (passphrase =? "Public Global Stellar Network ; September 2015")%string
       then "CAS3J7GYLGXMF6TDJBBYYSE3HQ6BBSMLNUQ34T6TZMYMW2EVH34XOWMA"
       else "CDLZFC3SYJYDZT7K67VZ75HPJVIEUVNIXF47ZG2FB2RMQQVU2HHGCYSC";
     i128_new := fun s =>
       if truthy s && JsString.all JsString.is_digit s then None
       else Some ("Cannot convert " ++ s ++ " to a BigInt");
     Math_floor := fun x => x;
     Number_toString := fun x =>
       if PrimFloat.eqb x 5%float then "5"
       else if PrimFloat.eqb x 50000000%float then "50000000"
       else "NaN";
     JSON_parse := parse_hash_document |}.

Definition sample_window : Window :=
  {| holeskyTxHash := ""; holeskyExplorerUrl := "" |}.

(** A well-formed account key. *)
Definition sample_address : string :=
  "GAAZI4TCR3TY5OJHCTJC2A4QSY6CJWJH5IAJTGKIN2ER7LBNVKOCCWN7".

(** The hashes of the lock transaction, of a fallback submission and of
    the release on the destination chain. *)
Definition sample_lock_hash : string :=
  "3389e9f0f1a65f19736cacf544c2e825313e8447f569233bb8db39aa607c8889".

Definition sample_submit_hash : string :=
  "b9d0b2292c4e09e8eb22d036171491e87b8d2086bf8b265874c8d182cb9c9020".

Definition sample_release_hash : string :=
  "0x5c504ed432cb51138bcf09aa5e8a410dd4a1e204ef84bfed1be16dfba1b22060".

(** The request of the spec's end-to-end scenario, from a well-formed
    address. *)
Definition sample_request : BridgeParams :=
  {| userAddress := sample_address;
     fromToken := "XLM";
     destToken := "HOLSKEY";
     amount := 5%float;
     destChain := "17000";
     recipientAddress := "0x8Da1867ab5eE5385dc72f5901bC9Bd16F580d157" |}.

(** Every remote call succeeds and the release hash comes back.  The
    backend is the one the canister's interface declares: it has
    [stellar_user_lock_txn] and [fetch_stellar_events], and neither
    [sign_transaction_stellar] nor [submit_transaction]. *)
Definition happy_script : Script :=
  {| on_OnProgress := fun _ => Normal tt;
     on_FetchAccount :=
       Resolved (mkHttp true 200 (Resolved (mkAccountData "100" [])));
     on_GetNetwork := Resolved "Test SDF Network ; September 2015";
     on_GetAccount := Resolved (mkAccount sample_address 107);
     on_PrepareTransaction := Resolved (mkSimulation "45603" "footprint");
     on_StellarUserLockTxn := Resolved (Ok (hash_document sample_lock_hash));
     on_FetchTransaction :=
       Resolved (mkHttp true 200 (Resolved (mkTxRecord (Some 42%Z))));
     on_FetchStellarEvents := Resolved (Ok sample_release_hash);
     on_SignTransactionStellar :=
       Rejected (TypeError "actor.sign_transaction_stellar is not a function");
     on_SubmitTransaction :=
       Rejected (TypeError "actor.submit_transaction is not a function");
     on_DateNow := "1700000000000" |}.

(** The lock is confirmed, then the backend declines to release. *)
Definition release_declined_script : Script :=
  {| on_OnProgress := on_OnProgress happy_script;
     on_FetchAccount := on_FetchAccount happy_script;
     on_GetNetwork := on_GetNetwork happy_script;
     on_GetAccount := on_GetAccount happy_script;
     on_PrepareTransaction := on_PrepareTransaction happy_script;
     on_StellarUserLockTxn := on_StellarUserLockTxn happy_script;
     on_FetchTransaction := on_FetchTransaction happy_script;
     on_FetchStellarEvents := Resolved (Err "release failed");
     on_SignTransactionStellar := on_SignTransactionStellar happy_script;
     on_SubmitTransaction := on_SubmitTransaction happy_script;
     on_DateNow := on_DateNow happy_script |}.

(** The same, with an actor that has the two methods the orchestrator
    falls back to, and both succeed. *)
Definition signing_backend_script : Script :=
  {| on_OnProgress := on_OnProgress happy_script;
     on_FetchAccount := on_FetchAccount happy_script;
     on_GetNetwork := on_GetNetwork happy_script;
     on_GetAccount := on_GetAccount happy_script;
     on_PrepareTransaction := on_PrepareTransaction happy_script;
     on_StellarUserLockTxn := on_StellarUserLockTxn happy_script;
     on_FetchTransaction := on_FetchTransaction happy_script;
     on_FetchStellarEvents := Resolved (Err "release failed");
     on_SignTransactionStellar := Resolved (Ok "signed-envelope");
     on_SubmitTransaction :=
       Resolved (Ok (hash_document sample_submit_hash));
     on_DateNow := on_DateNow happy_script |}.

(** Every remote call succeeds and the release hash comes back, to an
    observer that throws when it is given 100; the actor has the two
    fallback methods. *)
Definition failing_observer_script : Script :=
  {| on_OnProgress := fun n =>
       if (n =? 100)%Z then Abrupt (Error "observer failed") else Normal tt;
     on_FetchAccount := on_FetchAccount happy_script;
     on_GetNetwork := on_GetNetwork happy_script;
     on_GetAccount := on_GetAccount happy_script;
     on_PrepareTransaction := on_PrepareTransaction happy_script;
     on_StellarUserLockTxn := on_StellarUserLockTxn happy_script;
     on_FetchTransaction := on_FetchTransaction happy_script;
     on_FetchStellarEvents := on_FetchStellarEvents happy_script;
     on_SignTransactionStellar := Resolved (Ok "signed-envelope");
     on_SubmitTransaction :=
       Resolved (Ok (hash_document sample_submit_hash));
     on_DateNow := on_DateNow happy_script |}.

(** The values handed to the observer, in order. *)
Fixpoint progress_values (t : list Event) : list Z :=
  match t with
  | [] => []
  | Ev c _ :: r =>
      match c with
      | OnProgress n => n :: progress_values r
      | _ => progress_values r
      end
  end.

(** ** The validator read as an ordered list of rules *)

(** A rule: the test a request must pass and what is reported otherwise. *)
Record Rule : Type := mkRule {
  holds : BridgeParams -> bool;
  complaint : BridgeParams -> string
}.

(** The complaint of the first rule, in order, that a request breaks. *)
Definition first_violation (rules : list Rule) (params : BridgeParams)
  : option string :=
  match find (fun rule => negb (holds rule params)) rules with
  | Some rule => Some (complaint rule params)
  | None => None
  end.

Definition member (x : string) (l : list string) : bool :=
  existsb (String.eqb x) l.

Definition source_tokens : list string :=
  map (fun '(symbol, _, _) => symbol) getSupportedSourceTokens.

Definition destination_tokens : list string :=
  map (fun '(symbol, _, _) => symbol) getSupportedTokens.

Definition destination_chains : list string :=
  map (fun '(id, _, _) => id) getSupportedChains.

(** The chains [getSupportedTokens] lists for a token. *)
Definition token_chains (token : string) : list string :=
  flat_map (fun '(symbol, _, chains) =>
              if (symbol =? token)%string then chains else [])
    getSupportedTokens.

(** The pairing of the static whitelist: the chain is one of the token's. *)
Definition consistent (token chain : string) : bool :=
  member chain (token_chains token).

(** [0 < x] *)
Definition positive (x : float) : bool := PrimFloat.ltb 0%float x.

Definition rule_userAddress : Rule :=
  {| holds := fun p => truthy (userAddress p);
     complaint := fun _ => "User address is required" |}.

Definition rule_fromToken : Rule :=
  {| holds := fun p => member (fromToken p) source_tokens;
     complaint := fun _ => "Only XLM token is supported" |}.

Definition rule_destToken : Rule :=
  {| holds := fun p => member (destToken p) destination_tokens;
     complaint := fun _ => "Only HOLSKEY and BASE tokens are supported" |}.

Definition rule_amount : Rule :=
  {| holds := fun p => positive (amount p);
     complaint := fun _ => "Amount must be greater than 0" |}.

Definition rule_destChain : Rule :=
  {| holds := fun p => member (destChain p) destination_chains;
     complaint := fun _ =>
       "Only Holsky Testnet (17000) and Base Mainnet (8453) are supported" |}.

(** The destination-chain rule as the spec words it: "destChain is in the
    supported chain set and is consistent with destToken". *)
Definition rule_destChain_consistent : Rule :=
  {| holds := fun p => member (destChain p) destination_chains
                       && consistent (destToken p) (destChain p);
     complaint := complaint rule_destChain |}.

Definition rule_recipient_present : Rule :=
  {| holds := fun p => truthy (recipientAddress p);
     complaint := fun _ => "Recipient address is required" |}.

(** Every supported chain is of the EVM family. *)
Definition rule_recipient_format : Rule :=
  {| holds := fun p => negb (member (destChain p) destination_chains)
                       || is_evm_address (recipientAddress p);
     complaint := fun p =>
       "Invalid recipient address format for " ++ getChainName (destChain p) |}.

(** The rules the source applies, in its order. *)
Definition source_rules : list Rule :=
  [ rule_userAddress; rule_fromToken; rule_destToken; rule_amount;
    rule_destChain; rule_recipient_present; rule_recipient_format ].

(** The rules as the spec lists them. *)
Definition spec_rules : list Rule :=
  [ rule_userAddress; rule_fromToken; rule_destToken; rule_amount;
    rule_destChain_consistent; rule_recipient_present; rule_recipient_format ].

(** The spec's scenario with the token of one chain and the id of the
    other. *)
Definition mismatched_request : BridgeParams :=
  {| userAddress := "GABC";
     fromToken := "XLM";
     destToken := "HOLSKEY";
     amount := 5%float;
     destChain := "8453";
     recipientAddress := "0x8Da1867ab5eE5385dc72f5901bC9Bd16F580d157" |}.

(** The spec's failure scenario: the recipient is not an address. *)
Definition bad_recipient_request : BridgeParams :=
  {| userAddress := "GABC";
     fromToken := "XLM";
     destToken := "HOLSKEY";
     amount := 5%float;
     destChain := "17000";
     recipientAddress := "not-an-address" |}.

(** A request for a chain the table does not list. *)
Definition unsupported_chain_request : BridgeParams :=
  {| userAddress := "GABC";
     fromToken := "XLM";
     destToken := "HOLSKEY";
     amount := 5%float;
     destChain := "1";
     recipientAddress := "0x8Da1867ab5eE5385dc72f5901bC9Bd16F580d157" |}.

(** ** Hexadecimal text *)

(** A string of hexadecimal digits, optionally prefixed by [0x]: the test
    under which [toBytes] tries [hexToBytes] on a string without prefix. *)
Definition is_hex_string (s : string) : bool :=
  all_hex_nonempty (JsString.strip_0x s).

(** What [hexToBytes] accepts: an even number of hexadecimal digits,
    optionally prefixed by [0x]. *)
Definition is_hex_octets (s : string) : bool :=
  JsString.all JsString.is_hex (JsString.strip_0x s)
  && Nat.even (String.length (JsString.strip_0x s)).

Definition lower_hex_digits : list ascii :=
  list_ascii_of_string "0123456789abcdef".

(** The digits of a string, without prefix and in lower case. *)
Definition hex_digits (s : string) : string :=
  JsString.toLowerCase (JsString.strip_0x s).

(** ** What a trace shows *)

(** The XDR documents handed to [actor.stellar_user_lock_txn]. *)
Fixpoint lock_calls (t : list Event) : list Xdr :=
  match t with
  | [] => []
  | Ev c _ :: r =>
      match c with
      | StellarUserLockTxn x _ => x :: lock_calls r
      | _ => lock_calls r
      end
  end.

(** The XDR documents handed to [actor.sign_transaction_stellar]. *)
Fixpoint sign_calls (t : list Event) : list Xdr :=
  match t with
  | [] => []
  | Ev c _ :: r =>
      match c with
      | SignTransactionStellar _ x _ => x :: sign_calls r
      | _ => sign_calls r
      end
  end.

(** The signed envelopes handed to [actor.submit_transaction]. *)
Fixpoint submit_calls (t : list Event) : list string :=
  match t with
  | [] => []
  | Ev c _ :: r =>
      match c with
      | SubmitTransaction signed _ => signed :: submit_calls r
      | _ => submit_calls r
      end
  end.

(** The transactions sent to the RPC's simulate/prepare step. *)
Fixpoint prepare_calls (t : list Event) : list Transaction :=
  match t with
  | [] => []
  | Ev c _ :: r =>
      match c with
      | PrepareTransaction _ tx => tx :: prepare_calls r
      | _ => prepare_calls r
      end
  end.

(** What follows the first call of [actor.stellar_user_lock_txn]. *)
Fixpoint after_lock (t : list Event) : list Event :=
  match t with
  | [] => []
  | Ev c _ :: r =>
      match c with
      | StellarUserLockTxn _ _ => r
      | _ => after_lock r
      end
  end.

(** The answers to [actor.fetch_stellar_events]. *)
Fixpoint release_responses (t : list Event) : list (Settled CandidResult) :=
  match t with
  | [] => []
  | Ev c x :: r =>
      match c in Call X return X -> list (Settled CandidResult) with
      | FetchStellarEvents _ _ => fun x => x :: release_responses r
      | _ => fun _ => release_responses r
      end x
  end.

(** The answers to [actor.stellar_user_lock_txn]. *)
Fixpoint lock_responses (t : list Event) : list (Settled CandidResult) :=
  match t with
  | [] => []
  | Ev c x :: r =>
      match c in Call X return X -> list (Settled CandidResult) with
      | StellarUserLockTxn _ _ => fun x => x :: lock_responses r
      | _ => fun _ => lock_responses r
      end x
  end.

(** The destination transaction hash in an index-and-release answer: the
    trimmed text of an [Ok] when it begins with [0x]. *)
Definition release_hash (response : Settled CandidResult) : option string :=
  match response with
  | Resolved (Ok text) =>
      if truthy (JsString.trim text)
         && JsString.startsWith "0x" (JsString.trim text)
      then Some (JsString.trim text) else None
  | _ => None
  end.

(** A call that goes over the network (all but the observer, the timer and
    the clock). *)
Definition is_network_call (e : Event) : bool :=
  match e with
  | Ev c _ =>
      match c with
      | OnProgress _ | SetTimeout _ | DateNow => false
      | _ => true
      end
  end.

(** The lock hash a result carries. *)
Definition result_lockHash (r : BridgeResult) : option string :=
  match contractDetails r with
  | Some d => cd_lockHash d
  | None => None
  end.

(** The sequence value an account fetch returned. *)
Definition horizon_sequence (x : Settled (HttpResponse AccountData))
  : option string :=
  match x with
  | Resolved response =>
      match json response with
      | Resolved d => Some (sequence d)
      | Rejected _ => None
      end
  | Rejected _ => None
  end.

(** The accounts the RPC's [getAccount] gave. *)
Fixpoint rpc_accounts (t : list Event) : list Account :=
  match t with
  | [] => []
  | Ev c x :: r =>
      match c in Call X return X -> list Account with
      | GetAccount _ _ => fun x =>
          match x with
          | Resolved account => account :: rpc_accounts r
          | Rejected _ => rpc_accounts r
          end
      | _ => fun _ => rpc_accounts r
      end x
  end.

(** The most recent account fetch of a run: none so far, the Horizon
    fetch of [getAccountData], or the RPC's [getAccount]. *)
Inductive LastFetch : Type :=
| NoFetch
| HorizonFetch (x : Settled (HttpResponse AccountData))
| RpcFetch (x : Settled Account).

(** [uses_latest latest tx]: the most recent account fetch is the RPC's
    and gave an account; the transaction names that account as its source
    and carries its sequence number plus one. *)
Definition uses_latest (latest : LastFetch) (tx : Transaction) : Prop :=
  exists account,
    latest = RpcFetch (Resolved account)
    /\ tx_source tx = accountId account
    /\ tx_sequence tx = N.succ (sequenceNumber account).

(** [sequence_fresh latest t]: along [t], every transaction that is
    prepared, locked or signed follows, as [uses_latest] says, the most
    recent account fetch before it ([latest] at the start). *)
Fixpoint sequence_fresh (latest : LastFetch) (t : list Event) : Prop :=
  match t with
  | [] => True
  | Ev c x :: r =>
      match c in Call X return X -> Prop with
      | FetchAccount _ => fun x => sequence_fresh (HorizonFetch x) r
      | GetAccount _ _ => fun x => sequence_fresh (RpcFetch x) r
      | PrepareTransaction _ tx => fun _ =>
          uses_latest latest tx /\ sequence_fresh latest r
      | StellarUserLockTxn tx _ => fun _ =>
          uses_latest latest tx /\ sequence_fresh latest r
      | SignTransactionStellar _ tx _ => fun _ =>
          uses_latest latest tx /\ sequence_fresh latest r
      | _ => fun _ => sequence_fresh latest r
      end x
  end.

(** The envelope a returned result carries. *)
Definition result_envelope (o : Outcome BridgeResult) : list Xdr :=
  match o with
  | Returned r =>
      match contractDetails r with
      | Some d =>
          match cd_transactionXDR d with
          | Some x => [x]
          | None => []
          end
      | None => []
      end
  | Threw _ => []
  end.

(** The message with which [getAccountData] fails on an answer of the
    account fetch, [None] when it returns. *)
Definition account_failure (x : Settled (HttpResponse AccountData))
  : option string :=
  match x with
  | Rejected e => Some (message_or_error e)
  | Resolved response =>
      if ok response then
        match json response with
        | Rejected e => Some (message_or_error e)
        | Resolved _ => None
        end
      else if (status response =? 404)%Z
           then Some "Account not found. Please fund your account first."
           else Some ("Failed to fetch account data: "
                      ++ Z_toString (status response))
  end.

(** The observer returned, the account fetch gave an account, and the
    RPC answered the network and the account query. *)
Definition answers_well (e : Event) : bool :=
  match e with
  | Ev c x =>
      match c in Call X return X -> bool with
      | OnProgress _ => fun x =>
          match x with Normal _ => true | Abrupt _ => false end
      | FetchAccount _ => fun x =>
          match account_failure x with None => true | Some _ => false end
      | GetNetwork _ => fun x =>
          match x with Resolved _ => true | Rejected _ => false end
      | GetAccount _ _ => fun x =>
          match x with Resolved _ => true | Rejected _ => false end
      | _ => fun _ => true
      end x
  end.

(** The events before the first simulate/prepare call, all of them when
    there is none. *)
Fixpoint before_prepare (t : list Event) : list Event :=
  match t with
  | [] => []
  | Ev c x :: r =>
      match c with
      | PrepareTransaction _ _ => []
      | _ => Ev c x :: before_prepare r
      end
  end.

(** Nothing outside fails before the transaction is built. *)
Definition cooperative (t : list Event) : bool :=
  forallb answers_well (before_prepare t).

(** The SDK accepts what the request leads it to construct: the user's
    address, the bridge contract as an address and as a contract, the
    native asset's contract on whatever network, and the amount in
    stroops as a 128-bit integer. *)
Definition sdk_accepts (pf : Platform) (params : BridgeParams) : Prop :=
  Address_new pf (userAddress params) = None
  /\ Address_new pf BRIDGE_CONTRACT = None
  /\ Contract_new pf BRIDGE_CONTRACT = None
  /\ (forall passphrase,
        Address_new pf (native_contractId pf passphrase) = None)
  /\ i128_new pf
       (Number_toString pf
          (Math_floor pf (PrimFloat.mul (amount params) 10000000%float)))
     = None.

(** The values at which the observer threw, in order. *)
Fixpoint observer_faults (t : list Event) : list Z :=
  match t with
  | [] => []
  | Ev c x :: r =>
      match c in Call X return X -> list Z with
      | OnProgress n => fun x =>
          match x with
          | Normal _ => observer_faults r
          | Abrupt _ => n :: observer_faults r
          end
      | _ => fun _ => observer_faults r
      end x
  end.

Fixpoint nondecreasing (l : list Z) : bool :=
  match l with
  | a :: (b :: _) as r => (a <=? b)%Z && nondecreasing r
  | _ => true
  end.

(** An attempt in which the index-and-release answer carried a
    destination hash. *)
Definition released (t : list Event) : bool :=
  existsb (fun response =>
             match release_hash response with
             | Some _ => true
             | None => false
             end) (release_responses t).

(** One attempt: [executeBridgeTransaction] run from the empty history. *)
Definition attempt (pf : Platform) (world : World) (win : Window)
  (params : BridgeParams) (net : string) (onProgress actor : bool)
  : Run BridgeResult :=
  run world [] win (executeBridgeTransaction pf params net onProgress actor).

(** ** The properties of an attempt's trace *)

(** The observer threw after the release hash had come back: at 70, 90 or
    100, inside the [try] whose [catch] only logs. *)
Definition observer_failed_after_release (t : list Event) : Prop :=
  exists n rest,
    observer_faults t = n :: rest /\ In n [70; 90; 100]%Z.

(** One build, one lock call, and a sign-and-submit path that is taken at
    most once, on the XDR of the lock call, and after the release hash has
    come back only when the observer threw on hearing of it. *)
Definition submits_lock_once (t : list Event) : Prop :=
  (List.length (prepare_calls t) <= 1)%nat
  /\ (List.length (lock_calls t) <= 1)%nat
  /\ (List.length (sign_calls t) <= 1)%nat
  /\ (List.length (submit_calls t) <= 1)%nat
  /\ (sign_calls t = [] \/ sign_calls t = lock_calls t)
  /\ (released t = true ->
      (sign_calls t = [] /\ submit_calls t = [])
      \/ observer_failed_after_release t).

(** What an attempt does when the index-and-release answer carries no
    destination hash. *)
Definition falls_back_to_signing (t : list Event) (o : Outcome BridgeResult)
  : Prop :=
  forall response,
    release_responses t = [response] ->
    release_hash response = None ->
    (exists x,
       lock_calls t = [x]
       /\ (observer_faults t = [] -> sign_calls t = [x]))
    /\ match o with
       | Returned r => success r = true /\ result_lockHash r = None
       | Threw e =>
           exists m, e = Error ("Transaction building failed: " ++ m)
       end.

(** How the sequence number of the lock transaction follows the account
    fetches of the attempt. *)
Definition sequence_follows_rpc (pf : Platform) (params : BridgeParams)
  (t : list Event) (o : Outcome BridgeResult) : Prop :=
  sequence_fresh NoFetch t
  /\ (result_envelope o = [] \/ result_envelope o = lock_calls t)
  /\ (validateBridgeParams params = None ->
      sdk_accepts pf params ->
      cooperative t = true ->
      exists account tx,
        rpc_accounts t = [account]
        /\ prepare_calls t = [tx]
        /\ tx_sequence tx = N.succ (sequenceNumber account)).

(** The progress of a successful attempt goes down somewhere. *)
Definition progress_regresses (t : list Event) (o : Outcome BridgeResult)
  : Prop :=
  match o with
  | Returned _ => nondecreasing (progress_values t) = false
  | Threw _ => True
  end.

(** The checkpoints the source reports. *)
Definition checkpoints : list Z := [10; 25; 30; 40; 50; 60; 70; 80; 90; 100]%Z.

Definition reports_checkpoints (t : list Event) : Prop :=
  forallb (fun n => existsb (Z.eqb n) checkpoints) (progress_values t) = true.

(** ** The callers: the bridge form of the wallet's action panel *)

(** [getDefaultDestChain] of the action panel: the destination token and
    chain it sets for a Stellar network. *)
Definition getDefaultDestChain (network : string) : string * string :=
  if (network =? "stellar-testnet")%string then ("HOLSKEY", "17000")
  else if (network =? "stellar-mainnet")%string then ("BASE", "8453")
  else ("HOLSKEY", "17000").

(** [getNetworkType] of [App.tsx]: the backend's name of a network. *)
Definition getNetworkType (network : string) : string :=
  if (network =? "stellar-mainnet")%string then "mainnet"
  else if (network =? "stellar-testnet")%string then "testnet"
  else if (network =? "holesky-testnet")%string then "holesky-testnet"
  else if (network =? "base-mainnet")%string then "base-mainnet"
  else "testnet".

(** The state [bridgeForm] of the panel. *)
Record BridgeForm : Type := mkBridgeForm {
  bf_fromToken : string;
  bf_fromTokenAddress : string;
  bf_destToken : string;
  bf_amount : string;
  bf_destChain : string;
  bf_recipientAddress : string
}.

(** The form the panel starts from, and returns to when the dialog is
    closed or cancelled; [selectedNetwork] is [""] when the prop is not
    set. *)
Definition fresh_form (selectedNetwork : string) : BridgeForm :=
  let dest := getDefaultDestChain (or_else selectedNetwork "stellar-testnet") in
  {| bf_fromToken := "XLM";
     bf_fromTokenAddress := "";
     bf_destToken := fst dest;
     bf_amount := "";
     bf_destChain := snd dest;
     bf_recipientAddress := "" |}.

(** What the panel does to the form. *)
Inductive FormAction : Type :=
| NetworkChanged (selectedNetwork : string)
| Cleared (selectedNetwork : string)
| AmountTyped (value : string)
| RecipientTyped (value : string).

(** The [setBridgeForm] call of each action. *)
Definition update_form (f : BridgeForm) (action : FormAction) : BridgeForm :=
  match action with
  | NetworkChanged selectedNetwork =>
      let dest :=
        getDefaultDestChain (or_else selectedNetwork "stellar-testnet") in
      {| bf_fromToken := bf_fromToken f;
         bf_fromTokenAddress := bf_fromTokenAddress f;
         bf_destToken := fst dest;
         bf_amount := bf_amount f;
         bf_destChain := snd dest;
         bf_recipientAddress := bf_recipientAddress f |}
  | Cleared selectedNetwork => fresh_form selectedNetwork
  | AmountTyped value =>
      {| bf_fromToken := bf_fromToken f;
         bf_fromTokenAddress := bf_fromTokenAddress f;
         bf_destToken := bf_destToken f;
         bf_amount := value;
         bf_destChain := bf_destChain f;
         bf_recipientAddress := bf_recipientAddress f |}
  | RecipientTyped value =>
      {| bf_fromToken := bf_fromToken f;
         bf_fromTokenAddress := bf_fromTokenAddress f;
         bf_destToken := bf_destToken f;
         bf_amount := bf_amount f;
         bf_destChain := bf_destChain f;
         bf_recipientAddress := value |}
  end.

(** The forms the panel can show. *)
Inductive reachable_form : BridgeForm -> Prop :=
| reachable_fresh selectedNetwork : reachable_form (fresh_form selectedNetwork)
| reachable_update f action :
    reachable_form f -> reachable_form (update_form f action).

(** The two guards at the head of [handleBridgeTransaction]: the title of
    the toast it shows and returns with, [None] when it goes on.
    [stellar_address] is [""] when there is none. *)
Definition submit_guard (f : BridgeForm) (stellar_address : string)
  : option string :=
  if negb (truthy (bf_amount f)) || negb (truthy (bf_recipientAddress f))
     || negb (truthy (bf_destChain f))
  then Some "Invalid input"
  else if negb (truthy stellar_address) then Some "Address not available"
  else None.

(** [lockParams] of [handleBridgeTransaction]; [parseFloat] is the
    runtime's. *)
Definition lockParams (parseFloat : string -> float) (f : BridgeForm)
  (stellar_address : string) : BridgeParams :=
  {| userAddress := stellar_address;
     fromToken := bf_fromToken f;
     destToken := bf_destToken f;
     amount := parseFloat (bf_amount f);
     destChain := bf_destChain f;
     recipientAddress := bf_recipientAddress f |}.

(** The step of the panel's progress timers:
    [prev => prev >= 90 ? 90 : prev + step], with step 10 for the bridge
    and 15 for a payment. *)
Definition progress_tick (step prev : Z) : Z :=
  if (90 <=? prev)%Z then 90%Z else (prev + step)%Z.


(** ** More of what a trace shows *)

(** The observations [sel] makes of the events of a trace, in order. *)
Fixpoint observe {A : Type} (sel : forall X : Type, Call X -> X -> option A)
  (t : list Event) : list A :=
  match t with
  | [] => []
  | Ev c x :: r =>
      match sel _ c x with
      | Some a => a :: observe sel r
      | None => observe sel r
      end
  end.

(** The stages of the pipeline, one for each kind of call but the
    observer's. *)
Inductive Stage : Type :=
| AccountFetch | NetworkQuery | AccountQuery | Prepare | Lock
| Lookup | Settle | Release | Sign | Submit | Clock.

Definition stage_index (s : Stage) : nat :=
  match s with
  | AccountFetch => 1 | NetworkQuery => 2 | AccountQuery => 3 | Prepare => 4
  | Lock => 5 | Lookup => 6 | Settle => 7 | Release => 8 | Sign => 9
  | Submit => 10 | Clock => 11
  end.

(** The stage a stage cannot be entered without. *)
Definition stage_requires (s : Stage) : option Stage :=
  match s with
  | AccountFetch => None
  | NetworkQuery => Some AccountFetch
  | AccountQuery => Some NetworkQuery
  | Prepare => Some AccountQuery
  | Lock => Some Prepare
  | Lookup => Some Lock
  | Settle => Some Lookup
  | Release => Some Settle
  | Sign => Some Lock
  | Submit => Some Sign
  | Clock => Some Submit
  end.

Definition stage_of (X : Type) (c : Call X) (_ : X) : option Stage :=
  match c with
  | OnProgress _ => None
  | FetchAccount _ => Some AccountFetch
  | GetNetwork _ => Some NetworkQuery
  | GetAccount _ _ => Some AccountQuery
  | PrepareTransaction _ _ => Some Prepare
  | StellarUserLockTxn _ _ => Some Lock
  | FetchTransaction _ => Some Lookup
  | SetTimeout _ => Some Settle
  | FetchStellarEvents _ _ => Some Release
  | SignTransactionStellar _ _ _ => Some Sign
  | SubmitTransaction _ _ => Some Submit
  | DateNow => Some Clock
  end.

Definition stages (t : list Event) : list Stage := observe stage_of t.

Fixpoint increasing (l : list nat) : bool :=
  match l with
  | a :: (b :: _) as r => (a <? b)%nat && increasing r
  | _ => true
  end.

(** The stages come in the order of the pipeline, each at most once. *)
Definition in_pipeline_order (l : list Stage) : bool :=
  increasing (map stage_index l).

(** No stage is entered without the one it requires. *)
Definition prerequisites_met (l : list Stage) : bool :=
  forallb (fun s =>
             match stage_requires s with
             | None => true
             | Some r =>
                 existsb (fun s' => (stage_index s' =? stage_index r)%nat) l
             end) l.

Definition account_url_of (X : Type) (c : Call X) (_ : X) : option string :=
  match c with FetchAccount url => Some url | _ => None end.

Definition account_answer_of (X : Type) (c : Call X)
  : X -> option (Settled (HttpResponse AccountData)) :=
  match c in Call X return X -> option (Settled (HttpResponse AccountData)) with
  | FetchAccount _ => fun x => Some x
  | _ => fun _ => None
  end.

Definition rpc_url_of (X : Type) (c : Call X) (_ : X) : option string :=
  match c with
  | GetNetwork rpc | GetAccount rpc _ | PrepareTransaction rpc _ => Some rpc
  | _ => None
  end.

Definition rpc_address_of (X : Type) (c : Call X) (_ : X) : option string :=
  match c with GetAccount _ address => Some address | _ => None end.

Definition passphrase_of (X : Type) (c : Call X) : X -> option string :=
  match c in Call X return X -> option string with
  | GetNetwork _ => fun x =>
      match x with Resolved s => Some s | Rejected _ => None end
  | _ => fun _ => None
  end.

(** What the observer threw, with the value it was given. *)
Definition observer_error_of (X : Type) (c : Call X)
  : X -> option (Z * JsError) :=
  match c in Call X return X -> option (Z * JsError) with
  | OnProgress n => fun x =>
      match x with
      | Normal _ => None
      | Abrupt e => Some (n, e)
      end
  | _ => fun _ => None
  end.

(** The transactions [prepareTransaction] resolved with. *)
Definition prepared_of (X : Type) (c : Call X) : X -> option Transaction :=
  match c in Call X return X -> option Transaction with
  | PrepareTransaction _ tx => fun x =>
      match x with
      | Resolved simulation => Some (assembleTransaction tx simulation)
      | Rejected _ => None
      end
  | _ => fun _ => None
  end.

Definition lookup_url_of (X : Type) (c : Call X) (_ : X) : option string :=
  match c with FetchTransaction url => Some url | _ => None end.

(** The [ledger] of a transaction lookup whose body could be read. *)
Definition lookup_ledger_of (X : Type) (c : Call X) : X -> option (option Z) :=
  match c in Call X return X -> option (option Z) with
  | FetchTransaction _ => fun x =>
      match x with
      | Resolved response =>
          match json response with
          | Resolved d => Some (ledger d)
          | Rejected _ => None
          end
      | Rejected _ => None
      end
  | _ => fun _ => None
  end.

Definition timer_of (X : Type) (c : Call X) (_ : X) : option Z :=
  match c with SetTimeout ms => Some ms | _ => None end.

Definition release_call_of (X : Type) (c : Call X) (_ : X)
  : option (option Z * string) :=
  match c with
  | FetchStellarEvents ledgerNumber chain => Some (ledgerNumber, chain)
  | _ => None
  end.

Definition lock_network_of (X : Type) (c : Call X) (_ : X) : option string :=
  match c with StellarUserLockTxn _ net => Some net | _ => None end.

Definition sign_call_of (X : Type) (c : Call X) (_ : X)
  : option (string * string) :=
  match c with
  | SignTransactionStellar user _ net => Some (user, net)
  | _ => None
  end.

Definition submit_network_of (X : Type) (c : Call X) (_ : X) : option string :=
  match c with SubmitTransaction _ net => Some net | _ => None end.

Definition sign_answer_of (X : Type) (c : Call X)
  : X -> option (Settled CandidResult) :=
  match c in Call X return X -> option (Settled CandidResult) with
  | SignTransactionStellar _ _ _ => fun x => Some x
  | _ => fun _ => None
  end.

Definition submit_answer_of (X : Type) (c : Call X)
  : X -> option (Settled CandidResult) :=
  match c in Call X return X -> option (Settled CandidResult) with
  | SubmitTransaction _ _ => fun x => Some x
  | _ => fun _ => None
  end.

Definition prepare_answer_of (X : Type) (c : Call X)
  : X -> option (Settled Simulation) :=
  match c in Call X return X -> option (Settled Simulation) with
  | PrepareTransaction _ _ => fun x => Some x
  | _ => fun _ => None
  end.

(** The hash in the text of a backend answer: [JSON.parse(text).hash] when
    that evaluates to a truthy value. *)
Definition parsed_hash (pf : Platform) (text : string) : option string :=
  match JSON_parse pf text with
  | Normal v =>
      match get_hash v with
      | Normal h => if truthy h then Some h else None
      | Abrupt _ => None
      end
  | Abrupt _ => None
  end.

(** The lock hashes the backend confirmed. *)
Definition confirmed_lock_hashes (pf : Platform) (t : list Event)
  : list string :=
  flat_map (fun response =>
              match response with
              | Resolved (Ok text) =>
                  match parsed_hash pf text with
                  | Some h => [h]
                  | None => []
                  end
              | _ => []
              end) (lock_responses t).

(** The destination hashes that came back. *)
Definition released_hashes (t : list Event) : list string :=
  flat_map (fun response =>
              match release_hash response with
              | Some h => [h]
              | None => []
              end) (release_responses t).

(** The sequence values the Horizon account fetch reported. *)
Definition horizon_sequences (t : list Event) : list string :=
  flat_map (fun x => match horizon_sequence x with
                     | Some s => [s]
                     | None => []
                     end) (observe account_answer_of t).

(** The address of the account fetch of [getAccountData]. *)
Definition account_url (config : BridgeConfig) (params : BridgeParams)
  : string :=
  (if (network config =? "mainnet")%string then "https://horizon.stellar.org"
   else "https://horizon-testnet.stellar.org")
  ++ "/accounts/" ++ userAddress params.

(** The operation a request asks for: a call of [lock] on the bridge
    contract with the user, the native asset's contract on the network of
    [passphrase], the destination token, the amount in stroops, the bytes
    of the destination chain and the recipient. *)
Definition lock_operation (pf : Platform) (params : BridgeParams)
  (passphrase : string) : Operation :=
  {| op_contract := BRIDGE_CONTRACT;
     op_method := "lock";
     op_args :=
       [ scvAddress (userAddress params);
         scvAddress (native_contractId pf passphrase);
         scvString (destToken params);
         scvI128 (Number_toString pf
                    (Math_floor pf
                       (PrimFloat.mul (amount params) 10000000%float)));
         scvBytes (toBytes (destChain params));
         scvString (recipientAddress params) ] |}.

Definition is_lock_envelope (pf : Platform) (params : BridgeParams)
  (tx : Transaction) : Prop :=
  tx_operations tx = [lock_operation pf params (tx_networkPassphrase tx)]
  /\ tx_fee tx = "100"
  /\ tx_timeout tx = 300%Z.

(** The lookup of a lock transaction: always on the test network's
    Horizon. *)
Definition lookup_url (lockHash : string) : string :=
  "https://horizon-testnet.stellar.org/transactions/" ++ lockHash.

(** How the calls of an attempt follow from the request, whatever the
    observer does. *)
Definition calls_follow_request (pf : Platform) (params : BridgeParams)
  (net : string) (t : list Event) : Prop :=
  in_pipeline_order (stages t) = true
  /\ prerequisites_met (stages t) = true
  /\ Forall (eq (account_url (getBridgeConfig net) params))
       (observe account_url_of t)
  /\ Forall (eq (rpcUrl (getBridgeConfig net))) (observe rpc_url_of t)
  /\ Forall (eq (userAddress params)) (observe rpc_address_of t)
  /\ Forall (fun tx =>
               is_lock_envelope pf params tx
               /\ observe passphrase_of t = [tx_networkPassphrase tx]
               /\ tx_soroban tx = None) (prepare_calls t)
  /\ (lock_calls t = [] \/ lock_calls t = observe prepared_of t)
  /\ Forall (fun url => map lookup_url (confirmed_lock_hashes pf t) = [url])
       (observe lookup_url_of t)
  /\ Forall (fun call =>
               observe lookup_ledger_of t = [fst call]
               /\ snd call = destChain params)
       (observe release_call_of t)
  /\ Forall (eq 8000%Z) (observe timer_of t)
  /\ Forall (eq (network (getBridgeConfig net))) (observe lock_network_of t)
  /\ Forall (eq (userAddress params, net)) (observe sign_call_of t)
  /\ Forall (eq net) (observe submit_network_of t).

(** What the calls of an attempt come to when the observer returns every
    time: nothing of the pipeline is skipped. *)
Definition calls_complete (pf : Platform) (params : BridgeParams)
  (actor : bool) (t : list Event) : Prop :=
  observer_faults t = [] ->
  lock_calls t = (if actor then observe prepared_of t else [])
  /\ observe lookup_url_of t = map lookup_url (confirmed_lock_hashes pf t)
  /\ observe release_call_of t
     = map (fun l => (l, destChain params)) (observe lookup_ledger_of t)
  /\ observe timer_of t
     = map (fun _ => 8000%Z) (observe lookup_ledger_of t).

Definition clock_of (X : Type) (c : Call X) : X -> option string :=
  match c in Call X return X -> option string with
  | DateNow => fun x => Some x
  | _ => fun _ => None
  end.

(** The [bridgeDetails] of every result: the request, echoed. *)
Definition request_echo (pf : Platform) (params : BridgeParams)
  : BridgeDetails :=
  {| bd_fromChain := "Stellar";
     bd_toChain := getChainName (destChain params);
     bd_amount := Number_toString pf (amount params);
     bd_token := destToken params;
     bd_recipient := recipientAddress params;
     bd_contractExecution := Some true |}.

(** What the outcome of an attempt says.  What is thrown is the
    validator's message, or a message that begins "Transaction building
    failed: ", or what the observer threw at 10 or at 25, before the
    [try]. *)
Definition outcome_reported (pf : Platform) (params : BridgeParams)
  (net : string) (t : list Event) (o : Outcome BridgeResult) : Prop :=
  match o with
  | Threw e =>
      (exists msg, validateBridgeParams params = Some msg /\ e = Error msg)
      \/ (exists m, e = Error ("Transaction building failed: " ++ m))
      \/ (exists n,
            In n [10; 25]%Z /\ observe observer_error_of t = [(n, e)])
  | Returned r =>
      validateBridgeParams params = None
      /\ success r = true
      /\ bridgeDetails r = request_echo pf params
      /\ exists d x,
           contractDetails r = Some d
           /\ cd_contractId d = BRIDGE_CONTRACT
           /\ cd_network d = network (getBridgeConfig net)
           /\ cd_userAddress d = userAddress params
           /\ cd_transactionXDR d = Some x
           /\ lock_calls t = [x]
           /\ horizon_sequences t = [cd_sequenceNumber d]
  end.

(** What a failed account fetch leads to. *)
Definition account_failure_reported (t : list Event)
  (o : Outcome BridgeResult) : Prop :=
  match observe account_answer_of t with
  | [x] =>
      match account_failure x with
      | Some m =>
          o = Threw (Error ("Transaction building failed: " ++ m))
          /\ stages t = [AccountFetch]
      | None => True
      end
  | _ => True
  end.

(** The hash of the sign-and-submit result when [window] holds none. *)
Definition submission_hash (pf : Platform) (text : string) (t : list Event)
  : string :=
  match parsed_hash pf text with
  | Some h => h
  | None => "stellar_tx_" ++ hd "" (observe clock_of t)
  end.

(** The window the service leaves when the destination hash [h] came
    back. *)
Definition released_window (params : BridgeParams) (h : string) : Window :=
  {| holeskyTxHash := h;
     holeskyExplorerUrl := getChainExplorerUrl (destChain params) h |}.

(** How an attempt ends, by whether the destination hash came back. *)
Definition completion_reported (pf : Platform) (params : BridgeParams)
  (win : Window) (t : list Event) (win' : Window) (o : Outcome BridgeResult)
  : Prop :=
  match released_hashes t with
  | h :: _ =>
      (win' = win \/ win' = released_window params h)
      /\ (observer_faults t = [] ->
          win' = released_window params h
          /\ exists r lockHash,
               o = Returned r
               /\ hash r = h
               /\ message r = "Bridge transaction completed successfully"
               /\ explorer_url r = getChainExplorerUrl (destChain params) h
               /\ confirmed_lock_hashes pf t = [lockHash]
               /\ result_lockHash r = Some lockHash)
  | [] =>
      win' = win
      /\ match o with
         | Threw _ => True
         | Returned r =>
             result_lockHash r = None
             /\ (exists signed text,
                   observe sign_answer_of t = [Resolved (Ok signed)]
                   /\ submit_calls t = [signed]
                   /\ observe submit_answer_of t = [Resolved (Ok text)]
                   /\ (truthy (holeskyTxHash win) = false ->
                       hash r = submission_hash pf text t))
             /\ (truthy (holeskyTxHash win) = true ->
                 hash r = holeskyTxHash win
                 /\ message r = "Bridge transaction completed successfully")
             /\ (truthy (holeskyTxHash win) = false ->
                 message r = "Soroban lock contract executed successfully")
         end
  end.

(** A window with a destination hash left by an earlier attempt. *)
Definition stale_window : Window :=
  released_window sample_request sample_release_hash.

(** The account does not exist. *)
Definition unfunded_script : Script :=
  {| on_OnProgress := on_OnProgress happy_script;
     on_FetchAccount := Resolved (mkHttp false 404 (Rejected (Error "")));
     on_GetNetwork := on_GetNetwork happy_script;
     on_GetAccount := on_GetAccount happy_script;
     on_PrepareTransaction := on_PrepareTransaction happy_script;
     on_StellarUserLockTxn := on_StellarUserLockTxn happy_script;
     on_FetchTransaction := on_FetchTransaction happy_script;
     on_FetchStellarEvents := on_FetchStellarEvents happy_script;
     on_SignTransactionStellar := on_SignTransactionStellar happy_script;
     on_SubmitTransaction := on_SubmitTransaction happy_script;
     on_DateNow := on_DateNow happy_script |}.

(** The stages of [l] all come no later than [last] in the pipeline. *)
Definition stops_by (last : Stage) (l : list Stage) : bool :=
  forallb (fun s => (stage_index s <=? stage_index last)%nat) l.

(** What an attempt without the backend actor comes to. *)
Definition backend_missing_reported (t : list Event)
  (o : Outcome BridgeResult) : Prop :=
  stops_by Prepare (stages t) = true
  /\ (exists e, o = Threw e)
  /\ (forall simulation,
        observe prepare_answer_of t = [Resolved simulation] ->
        observer_faults t = [] ->
        o = Threw (Error ("Transaction building failed: "
                          ++ "Backend not available for transaction signing"))).

(** What an attempt comes to when the SDK rejects the user's address with
    the message [msg]. *)
Definition rejected_address_reported (params : BridgeParams) (msg : string)
  (t : list Event) (o : Outcome BridgeResult) : Prop :=
  stops_by AccountFetch (stages t) = true
  /\ (exists e, o = Threw e)
  /\ (forall x,
        observe account_answer_of t = [x] ->
        account_failure x = None ->
        observer_faults t = [] ->
        o = Threw (Error ("Transaction building failed: "
                          ++ "Failed to build transaction: "
                          ++ "Invalid userAddress: " ++ userAddress params
                          ++ " - " ++ msg))).

(** The [message] of the result the panel's [catch] shows:
    [error.message || "Bridge transaction failed"]. *)
Definition failure_message (e : JsError) : string :=
  or_else (err_message e) "Bridge transaction failed".

(** A request that passes validation with an address that is not a
    Stellar one. *)
Definition foreign_address_request : BridgeParams :=
  {| userAddress := "0x8Da1867ab5eE5385dc72f5901bC9Bd16F580d157";
     fromToken := "XLM";
     destToken := "HOLSKEY";
     amount := 5%float;
     destChain := "17000";
     recipientAddress := "0x8Da1867ab5eE5385dc72f5901bC9Bd16F580d157" |}.

(** [wp p win Q]: every run of [p] from the window [win], whatever the
    world answers, makes a trace, leaves a window and ends in an outcome
    that [Q] accepts. *)
Fixpoint wp {R : Type} (p : Prog R) (win : Window)
  (Q : list Event -> Window -> Outcome R -> Prop) : Prop :=
  match p with
  | Ret r => Q [] win (Returned r)
  | Throw e => Q [] win (Threw e)
  | Do c k => forall x, wp (k x) win (fun t => Q (Ev c x :: t))
  | GetWindow k => wp (k win) win Q
  | SetWindow w k => wp k w Q
  end.

(** * Properties *)

Lemma wp_sound {R : Type} (p : Prog R) :
  forall win Q world past,
    wp p win Q ->
    exists t,
      trace (run world past win p) = (past ++ t)%list /\
      Q t (window (run world past win p)) (outcome (run world past win p)).
Proof.
  induction p as [r | e | X c k IH | k IH | w k IH];
    intros win Q world past Hwp; simpl in *.
  - exists []. now rewrite app_nil_r.
  - exists []. now rewrite app_nil_r.
  - destruct (IH _ win _ world (past ++ [Ev c (world X past c)])%list
                (Hwp (world X past c))) as (t & Ht & HQ).
    exists (Ev c (world X past c) :: t). split; [|exact HQ].
    rewrite Ht, <- app_assoc. reflexivity.
  - apply IH, Hwp.
  - apply IH, Hwp.
Qed.

(** A run from the empty history. *)
Lemma wp_run {R : Type} (p : Prog R) win Q world :
  wp p win Q ->
  Q (trace (run world [] win p)) (window (run world [] win p))
    (outcome (run world [] win p)).
Proof.
  intros H. destruct (wp_sound p win Q world [] H) as (t & Ht & HQ).
  simpl in Ht. now rewrite Ht.
Qed.

Lemma wp_mono {R : Type} (p : Prog R) :
  forall win (Q Q' : list Event -> Window -> Outcome R -> Prop),
    (forall t w o, Q t w o -> Q' t w o) -> wp p win Q -> wp p win Q'.
Proof.
  induction p as [r | e | X c k IH | k IH | w k IH]; intros win Q Q' HQ H;
    simpl in *; try solve [eauto].
  intros x. eapply IH; [|apply H]. intros; now apply HQ.
Qed.

Lemma wp_bind {A B : Type} (p : Prog A) (f : A -> Prog B) :
  forall win Q,
    wp p win (fun t w o =>
      match o with
      | Returned a => wp (f a) w (fun t' => Q (t ++ t')%list)
      | Threw e => Q t w (Threw e)
      end) ->
    wp (bind p f) win Q.
Proof.
  induction p as [r | e | X c k IH | k IH | w k IH]; intros win Q H;
    simpl in *; eauto.
Qed.

Lemma wp_try_catch {A : Type} (p : Prog A) (h : JsError -> Prog A) :
  forall win Q,
    wp p win (fun t w o =>
      match o with
      | Returned a => Q t w (Returned a)
      | Threw e => wp (h e) w (fun t' => Q (t ++ t')%list)
      end) ->
    wp (try_catch p h) win Q.
Proof.
  induction p as [r | e | X c k IH | k IH | w k IH]; intros win Q H;
    simpl in *; eauto.
Qed.

(** ** Configuration *)

(** C9: the config resolver is total; it returns the mainnet configuration
    for ["stellar-mainnet"] and the testnet configuration, with the testnet
    RPC endpoint and passphrase, for every other network name. *)
Theorem getBridgeConfig_mainnet_or_testnet :
  getBridgeConfig "stellar-mainnet"
  = {| contractId := BRIDGE_CONTRACT;
       network := "mainnet";
       rpcUrl := "https://soroban-mainnet.stellar.org";
       networkPassphrase := "Public Global Stellar Network ; September 2015" |}
  /\ forall net : string,
       net <> "stellar-mainnet" ->
       getBridgeConfig net
       = {| contractId := BRIDGE_CONTRACT;
            network := "testnet";
            rpcUrl := "https://soroban-testnet.stellar.org";
            networkPassphrase := "Test SDF Network ; September 2015" |}.
Proof.
  split; [reflexivity|].
  intros net Hnet. unfold getBridgeConfig.
  apply String.eqb_neq in Hnet. now rewrite Hnet.
Qed.

Lemma getBridgeConfig_unknown_network :
  "no-such-network" <> "stellar-mainnet"
  /\ rpcUrl (getBridgeConfig "no-such-network")
     = "https://soroban-testnet.stellar.org"
  /\ networkPassphrase (getBridgeConfig "no-such-network")
     = "Test SDF Network ; September 2015".
Proof.
  assert (H : "no-such-network" <> "stellar-mainnet") by discriminate.
  split; [exact H|].
  rewrite (proj2 getBridgeConfig_mainnet_or_testnet "no-such-network" H).
  split; reflexivity.
Defined.

(** C10: the bridge contract identifier does not depend on the network:
    [getBridgeConfig] returns the same [contractId] for every name, and it is
    the identifier the service constructor defaults to. *)
Theorem contractId_constant :
  forall net : string,
    contractId (getBridgeConfig net)
    = "CDTA5IYGUGRI4PAGXJL7TPBEIC3EZY6V23ILF5EDVXFVLCGGMVOK4CRL"
    /\ svc_defaultBridge (StellarBridgeService (mkServiceOptions None None None))
       = contractId (getBridgeConfig net).
Proof. intros net. split; reflexivity. Qed.

(** ** The pure helpers on examples *)

Example trim_release_hash :
  JsString.trim "  0xfeed
" = "0xfeed".
Proof. reflexivity. Qed.

Example evm_address_examples :
  is_evm_address "0x8Da1867ab5eE5385dc72f5901bC9Bd16F580d157" = true
  /\ is_evm_address "0x8Da1867ab5eE5385dc72f5901bC9Bd16F580d15" = false
  /\ is_evm_address "not-an-address" = false.
Proof. repeat split. Qed.

Example validate_scenario : validateBridgeParams sample_request = None.
Proof. reflexivity. Qed.

Example explorer_urls :
  getChainExplorerUrl "17000" "0xabc" = "https://holesky.etherscan.io/tx/0xabc"
  /\ getChainExplorerUrl "8453" "0xabc" = "https://basescan.org/tx/0xabc"
  /\ getChainExplorerUrl "1" "0xabc" = "#0xabc".
Proof. repeat split. Qed.

(** ** The byte encoding of the destination chain *)

Lemma is_lower_hex_lower_char (c : ascii) :
  JsString.is_lower_hex (JsString.lower_char c) = JsString.is_hex c.
Proof. destruct c as [[] [] [] [] [] [] [] []]; reflexivity. Qed.

Lemma hex_is_not_x (c : ascii) :
  JsString.is_hex c = true -> (c =? "x")%char = false.
Proof.
  destruct c as [[] [] [] [] [] [] [] []]; intros H;
    solve [reflexivity | discriminate H].
Qed.

Lemma all_lower_hex_toLowerCase (s : string) :
  JsString.all JsString.is_lower_hex (JsString.toLowerCase s)
  = JsString.all JsString.is_hex s.
Proof.
  induction s as [|c s IH]; cbn [JsString.all JsString.toLowerCase];
    [reflexivity|].
  now rewrite is_lower_hex_lower_char, IH.
Qed.

Lemma length_toLowerCase (s : string) :
  String.length (JsString.toLowerCase s) = String.length s.
Proof. induction s as [|c s IH]; simpl; congruence. Qed.

Lemma strip_0x_of_hex (s : string) :
  JsString.all JsString.is_hex s = true -> JsString.strip_0x s = s.
Proof.
  destruct s as [|a [|b r]]; try reflexivity.
  cbn [JsString.all JsString.strip_0x].
  intros H. apply andb_prop in H as [_ H]. apply andb_prop in H as [Hb _].
  now rewrite (hex_is_not_x b Hb), andb_false_r.
Qed.

Lemma strip_0x_lower_of_hex (s : string) :
  JsString.all JsString.is_hex s = true ->
  JsString.strip_0x (JsString.toLowerCase s) = JsString.toLowerCase s.
Proof.
  intros H. apply strip_0x_of_hex.
  rewrite <- all_lower_hex_toLowerCase in H.
  revert H. generalize (JsString.toLowerCase s). clear s.
  induction s as [|c s IH]; cbn [JsString.all]; [reflexivity|].
  intros H. apply andb_prop in H as [Hc Hs].
  rewrite (IH Hs), andb_true_r.
  unfold JsString.is_lower_hex in Hc. unfold JsString.is_hex.
  now rewrite Hc.
Qed.

(** What [hexToBytes] looks at, once [toBytes] lets the string through. *)
Lemma strip_0x_toLowerCase (s : string) :
  JsString.startsWith "0x" s
  || all_hex_nonempty (JsString.strip_0x s) = true ->
  JsString.strip_0x (JsString.toLowerCase s) = hex_digits s.
Proof.
  unfold hex_digits.
  destruct s as [|a [|b r]]; try reflexivity.
  cbn [JsString.startsWith]. rewrite andb_true_r.
  change (JsString.strip_0x (String a (String b r)))
    with (if (a =? "0")%char && (b =? "x")%char
          then r else String a (String b r)).
  destruct ((a =? "0")%char && (b =? "x")%char) eqn:E.
  - intros _. apply andb_prop in E as [Ea Eb].
    apply Ascii.eqb_eq in Ea, Eb. subst a b. reflexivity.
  - rewrite orb_false_l. unfold all_hex_nonempty. intros H.
    apply andb_prop in H as [_ H].
    exact (strip_0x_lower_of_hex (String a (String b r)) H).
Qed.

Lemma strip_0x_not_prefixed (s : string) :
  JsString.startsWith "0x" s = false -> JsString.strip_0x s = s.
Proof.
  destruct s as [|a [|b r]]; try reflexivity.
  cbn [JsString.startsWith JsString.strip_0x]. rewrite andb_true_r.
  now intros ->.
Qed.

Lemma all_hex_nonempty_false (s : string) :
  JsString.all JsString.is_hex s = true ->
  all_hex_nonempty s = false -> s = "".
Proof.
  unfold all_hex_nonempty. intros ->. rewrite andb_true_r.
  destruct s; [reflexivity | discriminate].
Qed.

(** [toBytes] decodes exactly the strings with an even number of
    hexadecimal digits and encodes every other string as UTF-8. *)
Lemma toBytes_cases (s : string) :
  toBytes s = if is_hex_octets s then hex_pairs (hex_digits s)
              else utf8_encode s.
Proof.
  unfold toBytes, is_hex_octets.
  destruct (JsString.startsWith "0x" s
            || all_hex_nonempty (JsString.strip_0x s)) eqn:G.
  - unfold hexToBytes. rewrite (strip_0x_toLowerCase s G).
    unfold hex_digits.
    rewrite all_lower_hex_toLowerCase, length_toLowerCase, <- Nat.negb_even.
    destruct (JsString.all JsString.is_hex (JsString.strip_0x s));
      destruct (Nat.even (String.length (JsString.strip_0x s))); reflexivity.
  - apply orb_false_elim in G as [Gp Gh].
    destruct (JsString.all JsString.is_hex (JsString.strip_0x s)) eqn:A;
      [|reflexivity].
    rewrite (all_hex_nonempty_false _ A Gh) in *.
    rewrite (strip_0x_not_prefixed s Gp) in Gh, A.
    rewrite (all_hex_nonempty_false _ A Gh). reflexivity.
Qed.

Lemma string_pair_ind (P : string -> Prop) :
  P "" ->
  (forall a, P (String a "")) ->
  (forall a b r, P r -> P (String a (String b r))) ->
  forall s, P s.
Proof.
  intros H0 H1 H2 s.
  assert (H : P s /\ forall a, P (String a s)).
  { induction s as [|c s [IHs IHc]]; split; auto. }
  exact (proj1 H).
Qed.

Lemma lower_hex_cases (c : ascii) :
  JsString.is_lower_hex c = true -> In c lower_hex_digits.
Proof.
  destruct c as [[] [] [] [] [] [] [] []]; intros H;
    solve [discriminate H | simpl; tauto].
Qed.

Lemma hex_pair_roundtrip (a b : ascii) :
  JsString.is_lower_hex a = true ->
  JsString.is_lower_hex b = true ->
  bytesToHex [parse_hex_pair a b] = String a (String b "").
Proof.
  intros Ha Hb.
  apply lower_hex_cases in Ha. apply lower_hex_cases in Hb.
  unfold lower_hex_digits in *. simpl in Ha, Hb.
  repeat (destruct Ha as [<- | Ha]; [| ]); try contradiction;
    repeat (destruct Hb as [<- | Hb]; [| ]); try contradiction;
    vm_compute; reflexivity.
Qed.

Lemma bytesToHex_hex_pairs (s : string) :
  JsString.all JsString.is_lower_hex s = true ->
  Nat.even (String.length s) = true ->
  bytesToHex (hex_pairs s) = s.
Proof.
  induction s as [| a | a b r IH] using string_pair_ind; intros Hhex Hlen.
  - reflexivity.
  - discriminate Hlen.
  - cbn [JsString.all] in Hhex. apply andb_prop in Hhex as [Ha Hhex].
    apply andb_prop in Hhex as [Hb Hr].
    change (hex_pairs (String a (String b r)))
      with (parse_hex_pair a b :: hex_pairs r).
    change (bytesToHex (parse_hex_pair a b :: hex_pairs r))
      with (bytesToHex [parse_hex_pair a b] ++ bytesToHex (hex_pairs r)).
    rewrite (hex_pair_roundtrip a b Ha Hb), (IH Hr Hlen). reflexivity.
Qed.

(** Of the two supported chain ids, ["8453"] is decoded to two bytes;
    on ["17000"], five digits, [hexToBytes] throws. *)
Example hexToBytes_supported_chains :
  hexToBytes "8453" = Normal [x84; x53]%byte
  /\ toBytes "8453" = [x84; x53]%byte
  /\ hexToBytes "17000" = Abrupt (Error "Invalid hex for dest-chain").
Proof. repeat split. Qed.

(** C7, as stated, fails: ["17000"] is a string of hexadecimal digits, yet
    [toBytes] gives its five UTF-8 bytes, and their hexadecimal text is not
    the string. *)
Lemma toBytes_odd_length_hex_is_utf8 :
  is_hex_string "17000" = true
  /\ toBytes "17000" = utf8_encode "17000"
  /\ bytesToHex (toBytes "17000") = "3137303030"
  /\ bytesToHex (toBytes "17000") <> hex_digits "17000".
Proof. repeat split; try reflexivity. discriminate. Qed.

(** C7, amended: a string with an even number of hexadecimal digits,
    optionally prefixed by [0x], is decoded digit pair by digit pair, and
    the hexadecimal text of the bytes is the string again, up to case and
    prefix; every other string, hexadecimal digits of odd length included,
    is encoded as UTF-8.  [toBytes] is total: it never throws. *)
Theorem toBytes_hex_octets_or_utf8 (s : string) :
  (is_hex_octets s = true ->
   toBytes s = hex_pairs (hex_digits s)
   /\ bytesToHex (toBytes s) = hex_digits s)
  /\ (is_hex_octets s = false -> toBytes s = utf8_encode s).
Proof.
  rewrite toBytes_cases. split; intros H; rewrite H; [|reflexivity].
  split; [reflexivity|].
  unfold is_hex_octets in H. apply andb_prop in H as [Hhex Hlen].
  apply bytesToHex_hex_pairs; unfold hex_digits.
  - now rewrite all_lower_hex_toLowerCase.
  - now rewrite length_toLowerCase.
Qed.

Lemma toBytes_hex_octets_or_utf8_witness :
  (is_hex_octets "0x84Fa" = true
   /\ toBytes "0x84Fa" = [x84; xfa]%byte
   /\ bytesToHex (toBytes "0x84Fa") = "84fa")
  /\ (is_hex_octets "stellar" = false
      /\ toBytes "stellar" = utf8_encode "stellar").
Proof.
  split.
  - split; [reflexivity|].
    exact (proj1 (toBytes_hex_octets_or_utf8 "0x84Fa") eq_refl).
  - split; [reflexivity|].
    exact (proj2 (toBytes_hex_octets_or_utf8 "stellar") eq_refl).
Defined.

(** ** The parameter validator *)

Lemma SFeqb_finite_refl s m e :
  SFeqb (S754_finite s m e) (S754_finite s m e) = true.
Proof.
  unfold SFeqb, SFcompare. rewrite Z.compare_refl, Pos.compare_cont_refl.
  destruct s; reflexivity.
Qed.

(** The source's amount test is the test [amount > 0], [NaN] included. *)
Lemma amount_check_positive (x : float) :
  negb (truthy_number x) || PrimFloat.leb x 0%float = negb (positive x).
Proof.
  unfold truthy_number, positive, PrimFloat.is_nan.
  rewrite !eqb_spec, leb_spec, ltb_spec.
  replace (Prim2SF 0%float) with (S754_zero false) by reflexivity.
  destruct (Prim2SF x) as [s | s | | s m e];
    [destruct s; reflexivity | destruct s; reflexivity | reflexivity |].
  rewrite SFeqb_finite_refl. destruct s; reflexivity.
Qed.

Lemma falsy_differs (s k : string) :
  k <> "" -> (s =? k)%string = true -> truthy s = true.
Proof.
  intros Hk E. apply String.eqb_eq in E. subst s.
  unfold truthy. destruct (String.eqb_spec k ""); [contradiction|reflexivity].
Qed.

Lemma check_fromToken (p : BridgeParams) :
  negb (truthy (fromToken p)) || negb (fromToken p =? "XLM")%string
  = negb (holds rule_fromToken p).
Proof.
  cbn. rewrite orb_false_r.
  destruct (fromToken p =? "XLM")%string eqn:E; [|apply orb_true_r].
  rewrite (falsy_differs _ "XLM"); [reflexivity | discriminate | exact E].
Qed.

Lemma check_destToken (p : BridgeParams) :
  negb (truthy (destToken p))
  || (negb (destToken p =? "HOLSKEY")%string
      && negb (destToken p =? "BASE")%string)
  = negb (holds rule_destToken p).
Proof.
  cbn. rewrite orb_false_r.
  destruct (destToken p =? "HOLSKEY")%string eqn:E1.
  { rewrite (falsy_differs _ "HOLSKEY"); [reflexivity | discriminate | exact E1]. }
  destruct (destToken p =? "BASE")%string eqn:E2; [|apply orb_true_r].
  rewrite (falsy_differs _ "BASE"); [reflexivity | discriminate | exact E2].
Qed.

Lemma check_destChain (p : BridgeParams) :
  negb (truthy (destChain p))
  || (negb (destChain p =? "17000")%string
      && negb (destChain p =? "8453")%string)
  = negb (holds rule_destChain p).
Proof.
  cbn. rewrite orb_false_r.
  destruct (destChain p =? "17000")%string eqn:E1.
  { rewrite (falsy_differs _ "17000"); [reflexivity | discriminate | exact E1]. }
  destruct (destChain p =? "8453")%string eqn:E2; [|apply orb_true_r].
  rewrite (falsy_differs _ "8453"); [reflexivity | discriminate | exact E2].
Qed.

(** The validator returns the complaint of the first rule of
    [source_rules] that the request breaks, and [None] when it breaks
    none. *)
Lemma validate_first_violation (p : BridgeParams) :
  validateBridgeParams p = first_violation source_rules p.
Proof.
  unfold validateBridgeParams.
  rewrite check_fromToken, check_destToken, check_destChain,
    amount_check_positive.
  unfold first_violation, source_rules. cbn [find].
  change (truthy (userAddress p)) with (holds rule_userAddress p).
  change (positive (amount p)) with (holds rule_amount p).
  change (truthy (recipientAddress p)) with (holds rule_recipient_present p).
  destruct (holds rule_userAddress p); [|reflexivity].
  destruct (holds rule_fromToken p); [|reflexivity].
  destruct (holds rule_destToken p); [|reflexivity].
  destruct (holds rule_amount p); [|reflexivity].
  destruct (holds rule_destChain p) eqn:Hchain; [|reflexivity].
  destruct (holds rule_recipient_present p); [|reflexivity].
  assert (Hmember : member (destChain p) destination_chains = true)
    by exact Hchain.
  assert (Hname : (destChain p =? "17000")%string
                  || (destChain p =? "8453")%string = true).
  { cbn in Hmember. now rewrite orb_false_r in Hmember. }
  rewrite Hname.
  change (holds rule_recipient_format p)
    with (negb (member (destChain p) destination_chains)
          || is_evm_address (recipientAddress p)).
  rewrite Hmember. cbn [negb orb andb].
  destruct (is_evm_address (recipientAddress p)); cbn [negb];
    [reflexivity|].
  cbn [complaint rule_recipient_format]. unfold getChainName.
  destruct (destChain p =? "17000")%string; [reflexivity|].
  cbn [orb] in Hname. now rewrite Hname.
Qed.

Lemma first_violation_of_broken_rule (rules : list Rule) (p : BridgeParams) :
  (exists rule, In rule rules /\ holds rule p = false) ->
  exists msg, first_violation rules p = Some msg.
Proof.
  intros (rule & Hin & Hbroken). unfold first_violation.
  destruct (find (fun rule => negb (holds rule p)) rules) as [r|] eqn:F.
  - eauto.
  - apply (find_none _ _ F) in Hin. now rewrite Hbroken in Hin.
Qed.

Lemma first_violation_none (rules : list Rule) (p : BridgeParams) :
  first_violation rules p = None ->
  forall rule, In rule rules -> holds rule p = true.
Proof.
  unfold first_violation. intros H rule Hin.
  destruct (find (fun rule => negb (holds rule p)) rules) eqn:F;
    [discriminate|].
  apply (find_none _ _ F) in Hin. now apply negb_false_iff in Hin.
Qed.

Lemma validated_address (p : BridgeParams) :
  validateBridgeParams p = None -> truthy (userAddress p) = true.
Proof.
  unfold validateBridgeParams.
  destruct (truthy (userAddress p)); [reflexivity | discriminate].
Qed.

(** C6, as stated, fails: the request pairing the token of one chain with
    the id of the other breaks the spec's destination-chain rule, which
    would be the first violated one, and the validator accepts it. *)
Lemma validate_skips_consistency :
  first_violation spec_rules mismatched_request
  = Some "Only Holsky Testnet (17000) and Base Mainnet (8453) are supported"
  /\ validateBridgeParams mismatched_request = None.
Proof. split; reflexivity. Qed.

(** C6, amended: the validator applies, in this order and stopping at the
    first failure, the rules: userAddress present; fromToken among the
    supported source tokens; destToken among the supported destination
    tokens; amount > 0; destChain among the supported chains;
    recipientAddress present; recipientAddress matching [0x] and 40
    hexadecimal characters on the (EVM-family) supported chains.  It returns
    the message of the first rule broken and [null] exactly when every rule
    holds. *)
Theorem validate_applies_rules_in_order (p : BridgeParams) :
  validateBridgeParams p = first_violation source_rules p
  /\ (validateBridgeParams p = None <->
      forall rule, In rule source_rules -> holds rule p = true).
Proof.
  split; [apply validate_first_violation|].
  rewrite validate_first_violation. split.
  - apply first_violation_none.
  - intros Hall.
    destruct (first_violation source_rules p) as [msg|] eqn:F;
      [|reflexivity].
    unfold first_violation in F.
    destruct (find (fun rule => negb (holds rule p)) source_rules)
      as [r|] eqn:Ffind; [|discriminate].
    apply find_some in Ffind as [Hin Hneg].
    rewrite (Hall r Hin) in Hneg. discriminate.
Qed.

(** ** Running the orchestrator *)

(** Exploring every run of a program: normalise the head of the program,
    take the next answer of the world, split on what the program
    inspects. *)
Ltac unfold_service :=
  unfold executeBridgeTransaction, buildLockTransaction, getAccountData,
    buildStellarTransaction, createLockTransactionXDR, index_and_release,
    sign_and_submit, submitted_hash, submitted_explorer_url, validateAddress,
    completed_hash, build_result, StellarBridgeService, with_default,
    emit, await, perform, lift, construct.

Ltac reduce_prog :=
  cbn [wp bind try_catch get_hash bridgeCompleted br_holeskyTxHash
       lp_bridgeId lp_userAddress lp_destToken lp_inAmount lp_recipient
       lp_destChain lp_fromToken svc_rpcUrl svc_defaultBridge
       opt_rpcUrl opt_defaultBridge or_default xdr metadata
       md_fromToken md_networkPassphrase transactionXDR
       andb orb negb].

Ltac split_on x :=
  lazymatch x with
  | negb ?a => split_on a
  | ?a && _ => split_on a
  | ?a || _ => split_on a
  | match ?y with _ => _ end => split_on y
  | _ => let E := fresh "E" in destruct x eqn:E
  end.

Ltac stuck_in p :=
  lazymatch p with
  | bind ?q _ => stuck_in q
  | try_catch ?q _ => stuck_in q
  | match ?x with _ => _ end => split_on x
  end.

Ltac explore_step :=
  reduce_prog;
  lazymatch goal with
  | |- forall _, _ => intro
  | |- wp ?p _ _ => stuck_in p
  end.

Ltac explore := unfold_service; repeat explore_step.

Lemma executeBridgeTransaction_invalid pf p net o a msg :
  validateBridgeParams p = Some msg ->
  executeBridgeTransaction pf p net o a = Throw (Error msg).
Proof. intros H. unfold executeBridgeTransaction. now rewrite H. Qed.

Ltac use_bool_equations :=
  repeat match goal with
         | E : _ = true |- _ => rewrite E
         | E : _ = false |- _ => rewrite E
         end.

Lemma attempt_wp pf world win p net o a
  (Q : list Event -> Window -> Outcome BridgeResult -> Prop) :
  wp (executeBridgeTransaction pf p net o a) win Q ->
  Q (trace (attempt pf world win p net o a))
    (window (attempt pf world win p net o a))
    (outcome (attempt pf world win p net o a)).
Proof. apply wp_run. Qed.

(** ** The parts of the pipeline *)

(** [getAccountData] makes one call, the Horizon fetch, and what it returns
    carries the sequence value of that answer. *)
Lemma getAccountData_one_fetch (address net : string) (win : Window) :
  wp (getAccountData address net) win
    (fun t w o =>
       w = win
       /\ exists url x,
            t = [Ev (FetchAccount url) x]
            /\ forall d, o = Returned d ->
                         horizon_sequence x = Some (sequence d)).
Proof.
  unfold getAccountData, await, lift. repeat explore_step; reduce_prog.
  all: split; [reflexivity|]; do 2 eexists; split; [reflexivity|].
  all: intros d Hd; try discriminate Hd.
  injection Hd as <-. cbn [horizon_sequence].
  match goal with E : json _ = Resolved _ |- _ => now rewrite E end.
Qed.

(** The inner [try] of [buildStellarTransaction] never throws: its [catch]
    only logs, also what the observer throws.  It returns the completed
    result only when the release hash came back, and the window changes
    only then. *)
Lemma index_and_release_never_throws p config result stroops txHash o win :
  wp (index_and_release p config result stroops txHash o) win
    (fun t w out =>
       (out = Returned None /\ (w = win \/ released t = true))
       \/ exists completed,
            out = Returned (Some completed)
            /\ bridgeCompleted completed = true
            /\ lockTxHash completed = Some txHash
            /\ released t = true).
Proof.
  unfold index_and_release, build_result, emit, await, perform, lift.
  destruct o; repeat explore_step; reduce_prog;
    cbn [released release_responses release_hash existsb];
    use_bool_equations;
    first [ left; split; [reflexivity | left; reflexivity]
          | left; split; [reflexivity | right; reflexivity]
          | right; eexists; repeat split ].
Qed.

(** ** Validation comes first *)

Lemma attempt_invalid pf world win p net o a msg :
  validateBridgeParams p = Some msg ->
  attempt pf world win p net o a = mkRun [] win (Threw (Error msg)).
Proof.
  intros H. unfold attempt.
  now rewrite (executeBridgeTransaction_invalid pf p net o a msg H).
Qed.

Lemma nonpositive_amount_rejected (p : BridgeParams) :
  PrimFloat.leb (amount p) 0%float = true ->
  exists msg, validateBridgeParams p = Some msg.
Proof.
  intros H. rewrite validate_first_violation.
  apply first_violation_of_broken_rule.
  exists rule_amount. split; [cbn; tauto|].
  cbn [holds rule_amount]. apply negb_true_iff.
  rewrite <- amount_check_positive, H. apply orb_true_r.
Qed.

Lemma malformed_recipient_rejected (p : BridgeParams) :
  is_evm_address (recipientAddress p) = false ->
  exists msg, validateBridgeParams p = Some msg.
Proof.
  intros H. rewrite validate_first_violation.
  apply first_violation_of_broken_rule.
  destruct (holds rule_destChain p) eqn:Hchain.
  - exists rule_recipient_format. split; [cbn; tauto|].
    cbn [holds rule_recipient_format]. cbn [holds rule_destChain] in Hchain.
    now rewrite Hchain, H.
  - exists rule_destChain. split; [cbn; tauto | exact Hchain].
Qed.

(** C5: when [validateBridgeParams] returns an error, the attempt throws
    an [Error] with that very message and makes no call at all, so no
    account fetch, no ledger RPC and no backend call; a request with
    amount <= 0 and a request whose recipient is not [0x] and 40 hexadecimal
    characters are such requests. *)
Theorem validation_error_before_any_call
  (pf : Platform) (world : World) (win : Window) (p : BridgeParams)
  (net : string) (o a : bool) :
  (forall msg,
     validateBridgeParams p = Some msg ->
     attempt pf world win p net o a = mkRun [] win (Threw (Error msg)))
  /\ (PrimFloat.leb (amount p) 0%float = true ->
      validateBridgeParams p <> None)
  /\ (is_evm_address (recipientAddress p) = false ->
      validateBridgeParams p <> None).
Proof.
  split; [|split].
  - intros msg. apply attempt_invalid.
  - intros H. destruct (nonpositive_amount_rejected p H) as [msg ->].
    discriminate.
  - intros H. destruct (malformed_recipient_rejected p H) as [msg ->].
    discriminate.
Qed.

Lemma validation_error_before_any_call_witness :
  validateBridgeParams bad_recipient_request
  = Some "Invalid recipient address format for Holsky Testnet"
  /\ attempt sample_platform (scripted happy_script) sample_window
       bad_recipient_request "stellar-testnet" true true
     = mkRun [] sample_window
         (Threw (Error "Invalid recipient address format for Holsky Testnet")).
Proof.
  split; [reflexivity|].
  apply (proj1 (validation_error_before_any_call sample_platform
                  (scripted happy_script) sample_window
                  bad_recipient_request "stellar-testnet" true true)).
  reflexivity.
Defined.

(** C4, as stated, fails: the token of one chain with the id of the other
    is not a pair of the whitelist, yet the validator accepts the request and
    the attempt goes on to the network. *)
Lemma mismatched_pair_accepted :
  consistent (destToken mismatched_request) (destChain mismatched_request)
  = false
  /\ validateBridgeParams mismatched_request = None
  /\ existsb is_network_call
       (trace (attempt sample_platform (scripted happy_script) sample_window
                 mismatched_request "stellar-testnet" true true))
     = true.
Proof. repeat split; vm_compute; reflexivity. Qed.

(** C4, amended: the validator checks the destination token and the
    destination chain each against its own whitelist.  A request whose
    destToken is not a supported token, or whose destChain is not a
    supported chain, gets a validation error, thrown before the
    configuration is resolved and before any call is made. *)
Theorem unsupported_destination_rejected
  (pf : Platform) (world : World) (win : Window) (p : BridgeParams)
  (net : string) (o a : bool) :
  member (destToken p) destination_tokens = false
  \/ member (destChain p) destination_chains = false ->
  exists msg,
    validateBridgeParams p = Some msg
    /\ attempt pf world win p net o a = mkRun [] win (Threw (Error msg)).
Proof.
  intros H.
  assert (Hmsg : exists msg, validateBridgeParams p = Some msg).
  { rewrite validate_first_violation.
    apply first_violation_of_broken_rule.
    destruct H as [H | H].
    - exists rule_destToken. split; [cbn; tauto | exact H].
    - exists rule_destChain. split; [cbn; tauto | exact H]. }
  destruct Hmsg as [msg Hmsg]. exists msg.
  split; [exact Hmsg | now apply attempt_invalid].
Qed.

Lemma unsupported_destination_rejected_witness :
  exists msg,
    validateBridgeParams unsupported_chain_request = Some msg
    /\ attempt sample_platform (scripted happy_script) sample_window
         unsupported_chain_request "stellar-mainnet" true true
       = mkRun [] sample_window (Threw (Error msg)).
Proof.
  apply unsupported_destination_rejected. right. reflexivity.
Defined.

(** ** Lock submission *)

(** C1, as stated, fails: given an actor that has the two methods, after
    the lock call of an attempt the same XDR is handed to
    [sign_transaction_stellar] and its signed form to
    [submit_transaction]. *)
Lemma lock_xdr_signed_again :
  exists x,
    lock_calls
      (trace (attempt sample_platform (scripted signing_backend_script)
                sample_window sample_request "stellar-testnet" true true))
    = [x]
    /\ sign_calls
         (after_lock
            (trace (attempt sample_platform (scripted signing_backend_script)
                      sample_window sample_request "stellar-testnet" true true)))
       = [x]
    /\ submit_calls
         (after_lock
            (trace (attempt sample_platform (scripted signing_backend_script)
                      sample_window sample_request "stellar-testnet" true true)))
       = ["signed-envelope"].
Proof. vm_compute. eexists. repeat split. Qed.

(** With the backend the canister's interface declares, the XDR of the
    lock call is offered to [sign_transaction_stellar] all the same; the
    call fails, the actor having no such method. *)
Example lock_xdr_offered_for_signing :
  sign_calls
    (after_lock
       (trace (attempt sample_platform (scripted release_declined_script)
                 sample_window sample_request "stellar-testnet" true true)))
  = lock_calls
      (trace (attempt sample_platform (scripted release_declined_script)
                sample_window sample_request "stellar-testnet" true true))
  /\ List.length
       (lock_calls
          (trace (attempt sample_platform (scripted release_declined_script)
                    sample_window sample_request "stellar-testnet" true true)))
     = 1%nat.
Proof. split; vm_compute; reflexivity. Qed.

(** The release hash has come back and the observer throws on hearing
    100: the inner [catch] swallows the exception, and the XDR of the lock
    call is signed and submitted. *)
Example released_then_signed :
  released
    (trace (attempt sample_platform (scripted failing_observer_script)
              sample_window sample_request "stellar-testnet" true true))
  = true
  /\ observer_faults
       (trace (attempt sample_platform (scripted failing_observer_script)
                 sample_window sample_request "stellar-testnet" true true))
     = [100; 100]%Z
  /\ sign_calls
       (trace (attempt sample_platform (scripted failing_observer_script)
                 sample_window sample_request "stellar-testnet" true true))
     = lock_calls
         (trace (attempt sample_platform (scripted failing_observer_script)
                   sample_window sample_request "stellar-testnet" true true))
  /\ submit_calls
       (trace (attempt sample_platform (scripted failing_observer_script)
                 sample_window sample_request "stellar-testnet" true true))
     = ["signed-envelope"].
Proof. repeat split; vm_compute; reflexivity. Qed.

(** C1, amended: in one attempt the lock transaction is built at most once
    and handed to [stellar_user_lock_txn] at most once;
    [sign_transaction_stellar] is called at most once, with the XDR the lock
    call was given and never a rebuilt one, and [submit_transaction] at most
    once.  An attempt in which the release hash comes back makes no
    [sign_transaction_stellar] or [submit_transaction] call, unless the
    caller's observer throws at 70, 90 or 100: the inner [catch] swallows
    that exception and the attempt falls through to signing. *)
Theorem lock_call_at_most_once
  (pf : Platform) (world : World) (win : Window) (p : BridgeParams)
  (net : string) (o a : bool) :
  let t := trace (attempt pf world win p net o a) in
  (List.length (prepare_calls t) <= 1)%nat
  /\ (List.length (lock_calls t) <= 1)%nat
  /\ (List.length (sign_calls t) <= 1)%nat
  /\ (List.length (submit_calls t) <= 1)%nat
  /\ (sign_calls t = [] \/ sign_calls t = lock_calls t)
  /\ (released t = true ->
      (sign_calls t = [] /\ submit_calls t = [])
      \/ exists n rest,
           observer_faults t = n :: rest /\ In n [70; 90; 100]%Z).
Proof.
  apply (attempt_wp pf world win p net o a
           (fun t _ _ => submits_lock_once t)).
  destruct o, a; explore; reduce_prog; unfold submits_lock_once,
      observer_failed_after_release;
    cbn [prepare_calls lock_calls sign_calls submit_calls released
         release_responses release_hash existsb List.length
         observer_faults];
    use_bool_equations; cbn [andb orb];
    (split; [lia | split; [lia | split; [lia | split; [lia | split; [auto |]]]]]);
    first [ discriminate
          | intros _; left; split; reflexivity
          | intros _; right; do 2 eexists; split; [reflexivity|];
            cbn [In]; tauto ].
Qed.

(** ** Failure of the release *)

Lemma message_or_error_nonempty (c : ascii) (s : string) :
  message_or_error (Error (String c s)) = String c s.
Proof. reflexivity. Qed.

(** C3, as stated, fails: the lock is confirmed with its hash, the
    index-and-release answer is an [Err], and the attempt ends in no result
    at all: it throws an [Error] whose message speaks of the signing the
    orchestrator went on to, and which carries no lock hash. *)
Lemma failed_release_reports_signing_error :
  lock_responses
    (trace (attempt sample_platform (scripted release_declined_script)
              sample_window sample_request "stellar-testnet" true true))
  = [Resolved (Ok (hash_document sample_lock_hash))]
  /\ release_responses
       (trace (attempt sample_platform (scripted release_declined_script)
                 sample_window sample_request "stellar-testnet" true true))
     = [Resolved (Err "release failed")]
  /\ outcome (attempt sample_platform (scripted release_declined_script)
                sample_window sample_request "stellar-testnet" true true)
     = Threw (Error ("Transaction building failed: "
                     ++ "Transaction signing/submission failed: "
                     ++ "actor.sign_transaction_stellar is not a function")).
Proof. repeat split; vm_compute; reflexivity. Qed.

(** Given an actor that has the two fallback methods, the same attempt
    ends in a result with success = true that carries no lock hash. *)
Example failed_release_can_end_in_success :
  release_responses
    (trace (attempt sample_platform (scripted signing_backend_script)
              sample_window sample_request "stellar-testnet" true true))
  = [Resolved (Err "release failed")]
  /\ exists r,
       outcome (attempt sample_platform (scripted signing_backend_script)
                  sample_window sample_request "stellar-testnet" true true)
       = Returned r
       /\ success r = true
       /\ hash r = sample_submit_hash
       /\ result_lockHash r = None.
Proof.
  split; [vm_compute; reflexivity|].
  eexists. split; [vm_compute; reflexivity|].
  repeat split.
Qed.

(** What the source does when the index-and-release answer carries no
    destination hash beginning with [0x]: unless the observer throws, it
    goes on to hand the XDR of the lock call to
    [sign_transaction_stellar]; it ends either in a thrown [Error] whose
    message begins "Transaction building failed: ", or in a result with
    success = true and no lock hash. *)
Lemma failed_release_run
  (pf : Platform) (world : World) (win : Window) (p : BridgeParams)
  (net : string) (o a : bool) (response : Settled CandidResult) :
  release_responses (trace (attempt pf world win p net o a)) = [response] ->
  release_hash response = None ->
  (exists x,
     lock_calls (trace (attempt pf world win p net o a)) = [x]
     /\ (observer_faults (trace (attempt pf world win p net o a)) = [] ->
         sign_calls (trace (attempt pf world win p net o a)) = [x]))
  /\ match outcome (attempt pf world win p net o a) with
     | Returned r => success r = true /\ result_lockHash r = None
     | Threw e =>
         exists m, e = Error ("Transaction building failed: " ++ m)
     end.
Proof.
  revert response.
  apply (attempt_wp pf world win p net o a
           (fun t _ o => falls_back_to_signing t o)).
  destruct o, a; explore; reduce_prog; unfold falls_back_to_signing;
    cbn [release_responses lock_calls sign_calls observer_faults];
    intros response Hresponse Hhash;
    try discriminate Hresponse;
    injection Hresponse as <-; cbn [release_hash] in Hhash;
    try (revert Hhash; use_bool_equations; cbn [andb]; intros Hhash);
    try discriminate Hhash;
    (split;
     [ eexists; split;
       [reflexivity | intros Hquiet; first [discriminate Hquiet | reflexivity]]
     | ]);
    first [ split; reflexivity | eexists; reflexivity ].
Qed.

(** C3, amended: when the index-and-release answer carries no destination
    hash beginning with [0x], the attempt yields no failure result and does
    not preserve the lock hash: it ends either in a thrown [Error], which
    carries a name and a message only, or in a result with success = true
    and no lock hash. *)
Theorem failed_release_keeps_no_lock_hash
  (pf : Platform) (world : World) (win : Window) (p : BridgeParams)
  (net : string) (o a : bool) (response : Settled CandidResult) :
  release_responses (trace (attempt pf world win p net o a)) = [response] ->
  release_hash response = None ->
  match outcome (attempt pf world win p net o a) with
  | Returned r => success r = true /\ result_lockHash r = None
  | Threw e =>
      exists m, e = Error ("Transaction building failed: " ++ m)
  end.
Proof.
  intros Hresponse Hhash.
  exact (proj2 (failed_release_run pf world win p net o a response
                  Hresponse Hhash)).
Qed.

Lemma failed_release_keeps_no_lock_hash_witness :
  match outcome (attempt sample_platform (scripted release_declined_script)
                   sample_window sample_request "stellar-testnet" true true)
  with
  | Returned r => success r = true /\ result_lockHash r = None
  | Threw e => exists m, e = Error ("Transaction building failed: " ++ m)
  end.
Proof.
  exact (failed_release_keeps_no_lock_hash
           sample_platform (scripted release_declined_script)
           sample_window sample_request "stellar-testnet" true true
           (Resolved (Err "release failed")) eq_refl eq_refl).
Defined.

(** ** The sequence number of the lock transaction *)

(** C8, as stated, fails: in the scenario of the spec, Horizon reports
    sequence 100 and the RPC, asked afterwards, 107; the transaction that
    is built, locked and returned carries 108, the successor of the RPC's
    value, as the ledger requires, and the result reports 100. *)
Lemma built_sequence_is_successor :
  rpc_accounts
    (trace (attempt sample_platform (scripted happy_script) sample_window
              sample_request "stellar-testnet" true true))
  = [mkAccount sample_address 107]
  /\ map tx_sequence
       (lock_calls
          (trace (attempt sample_platform (scripted happy_script)
                    sample_window sample_request "stellar-testnet" true true)))
     = [108%N]
  /\ map tx_sequence
       (result_envelope
          (outcome (attempt sample_platform (scripted happy_script)
                      sample_window sample_request "stellar-testnet"
                      true true)))
     = [108%N]
  /\ exists r,
       outcome (attempt sample_platform (scripted happy_script) sample_window
                  sample_request "stellar-testnet" true true)
       = Returned r
       /\ option_map cd_sequenceNumber (contractDetails r) = Some "100".
Proof.
  split; [vm_compute; reflexivity|].
  split; [vm_compute; reflexivity|].
  split; [vm_compute; reflexivity|].
  eexists. split; [vm_compute; reflexivity|].
  reflexivity.
Qed.

(** C8, amended: along every attempt, each transaction that is sent to the
    simulate/prepare step, handed to [stellar_user_lock_txn] or handed to
    [sign_transaction_stellar] names the account that the RPC's
    [getAccount] returned in this attempt, the most recent account fetch
    before it, and carries that account's sequence number plus one; the
    attempt starts with no account, so no value of an earlier attempt is
    used, and the value of the Horizon fetch is not used either.  The
    envelope a returned result carries is the one the lock call was given.
    And the transaction is built: when the request is valid, the SDK
    accepts what it leads to, and up to the simulate/prepare step the
    observer, the Horizon fetch and the two RPC queries succeed, exactly
    one transaction is sent to that step, with the successor of the
    sequence number of the one account the RPC gave. *)
Theorem built_sequence_follows_rpc_fetch
  (pf : Platform) (world : World) (win : Window) (p : BridgeParams)
  (net : string) (o a : bool) :
  sequence_fresh NoFetch (trace (attempt pf world win p net o a))
  /\ (result_envelope (outcome (attempt pf world win p net o a)) = []
      \/ result_envelope (outcome (attempt pf world win p net o a))
         = lock_calls (trace (attempt pf world win p net o a)))
  /\ (validateBridgeParams p = None ->
      sdk_accepts pf p ->
      cooperative (trace (attempt pf world win p net o a)) = true ->
      exists account tx,
        rpc_accounts (trace (attempt pf world win p net o a)) = [account]
        /\ prepare_calls (trace (attempt pf world win p net o a)) = [tx]
        /\ tx_sequence tx = N.succ (sequenceNumber account)).
Proof.
  apply (attempt_wp pf world win p net o a
           (fun t _ out => sequence_follows_rpc pf p t out)).
  destruct o, a; explore; reduce_prog; unfold sequence_follows_rpc;
    (split;
     [ cbn [sequence_fresh]; unfold uses_latest;
       repeat first [ exact I | split | eexists ]
     | split;
       [ cbn [result_envelope contractDetails cd_transactionXDR
              completed_result submitted_result lock_calls];
         first [ left; reflexivity | right; reflexivity ]
       | intros Hvalid Hsdk Hcoop;
         first
           [ solve [ do 2 eexists;
                     cbn [rpc_accounts prepare_calls];
                     repeat split; reflexivity ]
           | exfalso; congruence
           | exfalso;
             match goal with
             | F : truthy (userAddress ?p) = false |- _ =>
                 rewrite (validated_address p Hvalid) in F; discriminate F
             end
           | exfalso;
             destruct Hsdk as (Huser & Hbridge & Hcontract & Hnative & Hamount);
             match goal with
             | E : Address_new _ _ = Some _ |- _ =>
                 first [ rewrite Hnative in E; discriminate E
                       | cbv [getBridgeConfig contractId] in E; congruence ]
             | E : Contract_new _ _ = Some _ |- _ =>
                 cbv [getBridgeConfig contractId] in E; congruence
             | E : i128_new _ _ = Some _ |- _ => congruence
             end
           | exfalso; revert Hcoop;
             cbn [cooperative before_prepare forallb answers_well
                  account_failure andb];
             use_bool_equations;
             repeat match goal with
                    | E : json _ = _ |- _ => rewrite E
                    end;
             repeat match goal with
                    | |- context [if ?b then _ else _] => destruct b
                    end;
             cbn [andb]; discriminate ] ] ]).
Qed.

Lemma sample_platform_accepts : sdk_accepts sample_platform sample_request.
Proof.
  unfold sdk_accepts.
  split; [vm_compute; reflexivity|].
  split; [vm_compute; reflexivity|].
  split; [vm_compute; reflexivity|].
  split; [|vm_compute; reflexivity].
  intros passphrase. cbn [Address_new native_contractId sample_platform].
  destruct (passphrase =? "Public Global Stellar Network ; September 2015")%string;
    vm_compute; reflexivity.
Defined.

Lemma built_sequence_follows_rpc_fetch_witness :
  exists tx,
    prepare_calls
      (trace (attempt sample_platform (scripted happy_script) sample_window
                sample_request "stellar-testnet" true true))
    = [tx]
    /\ tx_sequence tx = 108%N.
Proof.
  destruct (proj2 (proj2 (built_sequence_follows_rpc_fetch sample_platform
                            (scripted happy_script) sample_window
                            sample_request "stellar-testnet" true true))
              eq_refl sample_platform_accepts eq_refl)
    as (account & tx & Haccount & Hprepare & Hsequence).
  exists tx. split; [exact Hprepare|].
  vm_compute in Haccount. injection Haccount as <-. exact Hsequence.
Defined.

(** ** Progress *)

(** Every value reported is one of the fixed checkpoints, and no
    successful attempt with an observer reports a non-decreasing sequence:
    40 is always followed by 30 or by 25. *)
Lemma progress_regresses_on_every_success
  (pf : Platform) (world : World) (win : Window) (p : BridgeParams)
  (net : string) (a : bool) :
  reports_checkpoints (trace (attempt pf world win p net true a))
  /\ progress_regresses (trace (attempt pf world win p net true a))
       (outcome (attempt pf world win p net true a)).
Proof.
  apply (attempt_wp pf world win p net true a
           (fun t _ o => reports_checkpoints t /\ progress_regresses t o)).
  destruct a; explore; reduce_prog;
    unfold reports_checkpoints, progress_regresses; cbn [progress_values];
    split; solve [reflexivity | exact I].
Qed.

(** C2: whenever an attempt with an observer returns a result, the values
    the observer was given are not a non-decreasing sequence; every value
    is one of the checkpoints 10, 25, ..., 100. *)
Theorem successful_progress_regresses
  (pf : Platform) (world : World) (win : Window) (p : BridgeParams)
  (net : string) (a : bool) (r : BridgeResult) :
  outcome (attempt pf world win p net true a) = Returned r ->
  nondecreasing (progress_values (trace (attempt pf world win p net true a)))
  = false
  /\ forallb (fun n => existsb (Z.eqb n) checkpoints)
       (progress_values (trace (attempt pf world win p net true a)))
     = true.
Proof.
  intros Hreturned.
  destruct (progress_regresses_on_every_success pf world win p net a)
    as [Hcheckpoints Hregress].
  unfold progress_regresses in Hregress. rewrite Hreturned in Hregress.
  split; [exact Hregress | exact Hcheckpoints].
Qed.

(** On the successful run of the spec's scenario, from a well-formed
    address, the observer is given 10, 25, 30, 40, 30, 40, 50, 70, 90, 100,
    25: the values go down twice and the last one is 25, not 100. *)
Lemma successful_progress_regresses_witness :
  progress_values
    (trace (attempt sample_platform (scripted happy_script) sample_window
              sample_request "stellar-testnet" true true))
  = [10; 25; 30; 40; 30; 40; 50; 70; 90; 100; 25]%Z
  /\ nondecreasing
       (progress_values
          (trace (attempt sample_platform (scripted happy_script)
                    sample_window sample_request "stellar-testnet" true true)))
     = false
  /\ exists r,
       outcome (attempt sample_platform (scripted happy_script) sample_window
                  sample_request "stellar-testnet" true true)
       = Returned r
       /\ success r = true.
Proof.
  split; [vm_compute; reflexivity|].
  destruct (outcome (attempt sample_platform (scripted happy_script)
                       sample_window sample_request "stellar-testnet"
                       true true)) as [r | e] eqn:Hout.
  - split.
    + exact (proj1 (successful_progress_regresses sample_platform
                      (scripted happy_script) sample_window sample_request
                      "stellar-testnet" true r Hout)).
    + exists r. split; [reflexivity|].
      vm_compute in Hout. injection Hout as <-. reflexivity.
  - vm_compute in Hout. discriminate Hout.
Defined.

(** * Further properties of the service and its callers *)

(** ** More on the byte encoding *)

Lemma hex_digit_is_lower_hex (b : byte) :
  JsString.is_lower_hex (hex_digit (Byte.to_N b / 16)) = true
  /\ JsString.is_lower_hex (hex_digit (Byte.to_N b mod 16)) = true.
Proof. destruct b; split; reflexivity. Qed.

Lemma parse_hex_pair_hex_digit (b : byte) :
  parse_hex_pair (hex_digit (Byte.to_N b / 16)) (hex_digit (Byte.to_N b mod 16))
  = b.
Proof. destruct b; reflexivity. Qed.

Lemma lower_char_lower_hex (c : ascii) :
  JsString.is_lower_hex c = true -> JsString.lower_char c = c.
Proof.
  intros H. apply lower_hex_cases in H. unfold lower_hex_digits in H.
  simpl in H.
  repeat (destruct H as [<- | H]; [reflexivity|]). contradiction.
Qed.

Lemma toLowerCase_lower_hex (s : string) :
  JsString.all JsString.is_lower_hex s = true -> JsString.toLowerCase s = s.
Proof.
  induction s as [|c s IH]; cbn [JsString.all JsString.toLowerCase];
    [reflexivity|].
  intros H. apply andb_prop in H as [Hc Hs].
  now rewrite (lower_char_lower_hex c Hc), (IH Hs).
Qed.

Lemma lower_hex_is_hex (s : string) :
  JsString.all JsString.is_lower_hex s = true ->
  JsString.all JsString.is_hex s = true.
Proof.
  induction s as [|c s IH]; cbn [JsString.all]; [reflexivity|].
  intros H. apply andb_prop in H as [Hc Hs].
  rewrite (IH Hs), andb_true_r. unfold JsString.is_hex.
  unfold JsString.is_lower_hex in Hc. now rewrite Hc.
Qed.

Lemma bytesToHex_shape (l : list byte) :
  JsString.all JsString.is_lower_hex (bytesToHex l) = true
  /\ Nat.even (String.length (bytesToHex l)) = true
  /\ hex_pairs (bytesToHex l) = l.
Proof.
  induction l as [|b l (IHhex & IHlen & IHpairs)]; [repeat split|].
  destruct (hex_digit_is_lower_hex b) as [Hhi Hlo].
  cbn [bytesToHex JsString.all String.length hex_pairs].
  rewrite Hhi, Hlo, IHhex, IHpairs, parse_hex_pair_hex_digit.
  repeat split. exact IHlen.
Qed.

Lemma hexToBytes_digits (s : string) :
  JsString.all JsString.is_lower_hex s = true ->
  Nat.even (String.length s) = true ->
  hexToBytes s = Normal (hex_pairs s)
  /\ hexToBytes ("0x" ++ s) = Normal (hex_pairs s).
Proof.
  intros Hhex Hlen.
  assert (Hstrip : JsString.strip_0x s = s)
    by (apply strip_0x_of_hex, lower_hex_is_hex, Hhex).
  unfold hexToBytes. cbn [append JsString.toLowerCase].
  rewrite (toLowerCase_lower_hex s Hhex).
  change (JsString.strip_0x (String (JsString.lower_char "0")
                               (String (JsString.lower_char "x") s)))
    with s.
  rewrite Hstrip, Hhex, <- Nat.negb_even, Hlen. split; reflexivity.
Qed.

Lemma toBytes_digits (s : string) :
  JsString.all JsString.is_lower_hex s = true ->
  Nat.even (String.length s) = true ->
  toBytes s = hex_pairs s /\ toBytes ("0x" ++ s) = hex_pairs s.
Proof.
  intros Hhex Hlen.
  assert (Hstrip : JsString.strip_0x s = s)
    by (apply strip_0x_of_hex, lower_hex_is_hex, Hhex).
  rewrite !toBytes_cases. unfold is_hex_octets, hex_digits.
  change (JsString.strip_0x ("0x" ++ s)) with s.
  rewrite Hstrip, (lower_hex_is_hex s Hhex), Hlen,
    (toLowerCase_lower_hex s Hhex).
  split; reflexivity.
Qed.

(** X1: decoding undoes encoding.  The lower-case hexadecimal text of any
    byte sequence, with or without the [0x] prefix, is decoded by
    [hexToBytes] to that sequence, and [toBytes] gives it back too. *)
Theorem hexToBytes_bytesToHex (l : list byte) :
  hexToBytes (bytesToHex l) = Normal l
  /\ hexToBytes ("0x" ++ bytesToHex l) = Normal l
  /\ toBytes (bytesToHex l) = l
  /\ toBytes ("0x" ++ bytesToHex l) = l.
Proof.
  destruct (bytesToHex_shape l) as (Hhex & Hlen & Hpairs).
  destruct (hexToBytes_digits _ Hhex Hlen) as [H1 H2].
  destruct (toBytes_digits _ Hhex Hlen) as [H3 H4].
  rewrite Hpairs in H1, H2, H3, H4. auto.
Qed.

Lemma length_hex_pairs (s : string) :
  Nat.even (String.length s) = true ->
  2 * List.length (hex_pairs s) = String.length s.
Proof.
  induction s as [| a | a b r IH] using string_pair_ind; intros Hlen.
  - reflexivity.
  - discriminate Hlen.
  - cbn [hex_pairs List.length String.length].
    change (Nat.even (S (S (String.length r)))) with
      (Nat.even (String.length r)) in Hlen.
    specialize (IH Hlen). lia.
Qed.

(** X2: [hexToBytes] either throws the error "Invalid hex for dest-chain"
    or returns bytes whose lower-case hexadecimal text is its argument in
    lower case without the [0x] prefix, one byte for every two digits; the
    case of the argument, that of the prefix included, makes no
    difference. *)
Theorem hexToBytes_decodes_or_throws (s : string) :
  match hexToBytes s with
  | Normal out =>
      bytesToHex out = JsString.strip_0x (JsString.toLowerCase s)
      /\ 2 * List.length out
         = String.length (JsString.strip_0x (JsString.toLowerCase s))
  | Abrupt e => e = Error "Invalid hex for dest-chain"
  end
  /\ hexToBytes (JsString.toLowerCase s) = hexToBytes s.
Proof.
  split.
  - unfold hexToBytes.
    destruct (JsString.all JsString.is_lower_hex
                (JsString.strip_0x (JsString.toLowerCase s))) eqn:Hhex;
      [|reflexivity].
    rewrite <- Nat.negb_even.
    destruct (Nat.even (String.length
                (JsString.strip_0x (JsString.toLowerCase s)))) eqn:Hlen;
      [|reflexivity].
    cbn [negb orb]. split.
    + now apply bytesToHex_hex_pairs.
    + now apply length_hex_pairs.
  - unfold hexToBytes.
    assert (H : JsString.toLowerCase (JsString.toLowerCase s)
                = JsString.toLowerCase s).
    { induction s as [|c s IH]; cbn [JsString.toLowerCase]; [reflexivity|].
      rewrite IH. f_equal.
      destruct c as [[] [] [] [] [] [] [] []]; reflexivity. }
    now rewrite H.
Qed.

Lemma length_utf8_encode (s : string) :
  List.length (utf8_encode s) = String.length s.
Proof.
  unfold utf8_encode, list_byte_of_string.
  rewrite length_map.
  induction s as [|c s IH]; cbn; congruence.
Qed.

Lemma strip_0x_empty (s : string) :
  JsString.strip_0x s = "" -> s = "" \/ s = "0x".
Proof.
  destruct s as [|a [|b r]]; cbn [JsString.strip_0x]; auto; try discriminate.
  destruct ((a =? "0")%char && (b =? "x")%char) eqn:E; [|discriminate].
  intros ->. apply andb_prop in E as [Ea Eb].
  apply Ascii.eqb_eq in Ea, Eb. subst. auto.
Qed.

Lemma length_strip_0x (s : string) :
  String.length (JsString.strip_0x s) <= String.length s.
Proof.
  destruct s as [|a [|b r]]; cbn [JsString.strip_0x]; auto.
  destruct ((a =? "0")%char && (b =? "x")%char); cbn [String.length]; lia.
Qed.

(** X3: [toBytes] never gives more bytes than the UTF-8 text of its
    argument has, and it gives no byte at all exactly for the empty string
    and for the bare prefix [0x]. *)
Theorem toBytes_length (s : string) :
  List.length (toBytes s) <= String.length s
  /\ (toBytes s = [] <-> s = "" \/ s = "0x").
Proof.
  rewrite toBytes_cases. unfold is_hex_octets, hex_digits.
  destruct (JsString.all JsString.is_hex (JsString.strip_0x s)
            && Nat.even (String.length (JsString.strip_0x s))) eqn:E.
  - apply andb_prop in E as [Hhex Hlen].
    rewrite <- length_toLowerCase in Hlen.
    pose proof (length_hex_pairs _ Hlen) as Hpairs.
    rewrite length_toLowerCase in Hpairs.
    pose proof (length_strip_0x s) as Hstrip.
    split; [lia|]. split.
    + intros H. rewrite H in Hpairs. cbn [List.length] in Hpairs.
      apply strip_0x_empty.
      destruct (JsString.strip_0x s); [reflexivity | discriminate].
    + intros [-> | ->]; reflexivity.
  - rewrite length_utf8_encode. split; [lia|]. split.
    + intros H. left.
      pose proof (length_utf8_encode s) as Hl. rewrite H in Hl.
      destruct s; [reflexivity | discriminate].
    + intros [-> | ->]; [reflexivity | discriminate E].
Qed.

(** ** The static tables *)

Lemma member_destination_chains (c : string) :
  member c destination_chains
  = ((c =? "17000")%string || (c =? "8453")%string).
Proof. cbn. now rewrite orb_false_r. Qed.



(** ** The bridge form *)

Lemma getDefaultDestChain_paired (net : string) :
  member (fst (getDefaultDestChain net)) destination_tokens = true
  /\ member (snd (getDefaultDestChain net)) destination_chains = true
  /\ consistent (fst (getDefaultDestChain net)) (snd (getDefaultDestChain net))
     = true.
Proof.
  unfold getDefaultDestChain.
  destruct (net =? "stellar-testnet")%string; [repeat split|].
  destruct (net =? "stellar-mainnet")%string; repeat split.
Qed.

(** X5: whatever the network name, [getDefaultDestChain] gives a token and
    a chain that are supported and paired in the token table, and it gives
    the Base chain exactly when [getBridgeConfig] resolves the name to the
    mainnet configuration. *)
Theorem default_destination_consistent (net : string) :
  member (fst (getDefaultDestChain net)) destination_tokens = true
  /\ member (snd (getDefaultDestChain net)) destination_chains = true
  /\ consistent (fst (getDefaultDestChain net)) (snd (getDefaultDestChain net))
     = true
  /\ (snd (getDefaultDestChain net) = "8453"
      <-> network (getBridgeConfig net) = "mainnet").
Proof.
  destruct (getDefaultDestChain_paired net) as (Htoken & Hchain & Hpair).
  repeat (split; [assumption|]).
  unfold getDefaultDestChain, getBridgeConfig.
  destruct (String.eqb_spec net "stellar-testnet") as [-> | H1].
  { split; discriminate. }
  destruct (net =? "stellar-mainnet")%string; split;
    try reflexivity; discriminate.
Qed.

(** X6: the application's [getNetworkType] and the bridge service's
    [getBridgeConfig] name a network alike, except for the two EVM
    networks, which only [getNetworkType] knows. *)
Theorem getNetworkType_agrees_with_config (net : string) :
  net <> "holesky-testnet" ->
  net <> "base-mainnet" ->
  getNetworkType net = network (getBridgeConfig net).
Proof.
  intros Hh Hb. unfold getNetworkType, getBridgeConfig.
  apply String.eqb_neq in Hh, Hb. rewrite Hh, Hb.
  destruct (net =? "stellar-mainnet")%string; [reflexivity|].
  now destruct (net =? "stellar-testnet")%string.
Qed.

Lemma getNetworkType_agrees_with_config_witness :
  getNetworkType "stellar-mainnet" = "mainnet"
  /\ getNetworkType "some-other-network" = "testnet".
Proof.
  split.
  - rewrite (getNetworkType_agrees_with_config "stellar-mainnet");
      [reflexivity | discriminate | discriminate].
  - rewrite (getNetworkType_agrees_with_config "some-other-network");
      [reflexivity | discriminate | discriminate].
Defined.

Lemma reachable_form_invariant (f : BridgeForm) :
  reachable_form f ->
  bf_fromToken f = "XLM"
  /\ exists net, (bf_destToken f, bf_destChain f) = getDefaultDestChain net.
Proof.
  induction 1 as [selectedNetwork | f action _ [IHfrom [net IHdest]]].
  - split; [reflexivity|]. eexists. cbn. symmetry. apply surjective_pairing.
  - destruct action as [n | n | v | v]; cbn.
    + split; [exact IHfrom|]. eexists. symmetry. apply surjective_pairing.
    + split; [reflexivity|]. eexists. symmetry. apply surjective_pairing.
    + split; [exact IHfrom | exists net; exact IHdest].
    + split; [exact IHfrom | exists net; exact IHdest].
Qed.

Lemma consistent_request_rules (p : BridgeParams) :
  consistent (destToken p) (destChain p) = true ->
  first_violation spec_rules p = first_violation source_rules p.
Proof.
  intros H. unfold first_violation, spec_rules, source_rules. cbn [find].
  assert (Hrule : holds rule_destChain_consistent p = holds rule_destChain p).
  { cbn [holds rule_destChain_consistent rule_destChain].
    now rewrite H, andb_true_r. }
  rewrite Hrule.
  destruct (negb (holds rule_userAddress p)); [reflexivity|].
  destruct (negb (holds rule_fromToken p)); [reflexivity|].
  destruct (negb (holds rule_destToken p)); [reflexivity|].
  destruct (negb (holds rule_amount p)); [reflexivity|].
  destruct (negb (holds rule_destChain p)); reflexivity.
Qed.

(** X7: every form the panel can reach (from the fresh form, by network
    changes, clearing and typing an amount or a recipient) has the source
    token XLM and a destination token and chain given by
    [getDefaultDestChain]; on the request built from it, for any address and
    amount, the validator returns what the rule list with the pairing rule
    returns. *)
Theorem panel_requests_are_paired (parseFloat : string -> float)
  (f : BridgeForm) (stellar_address : string) :
  reachable_form f ->
  fromToken (lockParams parseFloat f stellar_address) = "XLM"
  /\ consistent (destToken (lockParams parseFloat f stellar_address))
       (destChain (lockParams parseFloat f stellar_address)) = true
  /\ validateBridgeParams (lockParams parseFloat f stellar_address)
     = first_violation spec_rules (lockParams parseFloat f stellar_address).
Proof.
  intros Hreach.
  destruct (reachable_form_invariant f Hreach) as [Hfrom [net Hdest]].
  assert (Hpair : consistent (bf_destToken f) (bf_destChain f) = true).
  { rewrite (surjective_pairing (getDefaultDestChain net)) in Hdest.
    injection Hdest as -> ->.
    exact (proj2 (proj2 (getDefaultDestChain_paired net))). }
  split; [exact Hfrom|]. split; [exact Hpair|].
  rewrite validate_first_violation. symmetry.
  now apply consistent_request_rules.
Qed.

Lemma panel_requests_are_paired_witness :
  validateBridgeParams
    (lockParams (fun _ => 5%float)
       (update_form (update_form (fresh_form "stellar-mainnet")
                       (AmountTyped "5"))
          (RecipientTyped "0x8Da1867ab5eE5385dc72f5901bC9Bd16F580d157"))
       "GABC")
  = first_violation spec_rules
      (lockParams (fun _ => 5%float)
         (update_form (update_form (fresh_form "stellar-mainnet")
                         (AmountTyped "5"))
            (RecipientTyped "0x8Da1867ab5eE5385dc72f5901bC9Bd16F580d157"))
         "GABC").
Proof.
  apply panel_requests_are_paired.
  do 2 apply reachable_update. apply reachable_fresh.
Defined.

(** X8: when the two guards of [handleBridgeTransaction] let a reachable
    form through, validation of the request can fail in two ways only: the
    amount is not greater than 0, or the recipient is not an address of the
    destination chain. *)
Theorem panel_validation_errors (parseFloat : string -> float)
  (f : BridgeForm) (stellar_address : string) :
  reachable_form f ->
  submit_guard f stellar_address = None ->
  validateBridgeParams (lockParams parseFloat f stellar_address) = None
  \/ validateBridgeParams (lockParams parseFloat f stellar_address)
     = Some "Amount must be greater than 0"
  \/ validateBridgeParams (lockParams parseFloat f stellar_address)
     = Some ("Invalid recipient address format for "
             ++ getChainName (bf_destChain f)).
Proof.
  intros Hreach Hguard.
  destruct (reachable_form_invariant f Hreach) as [Hfrom [net Hdest]].
  pose proof (getDefaultDestChain_paired net) as (Htok & Hchain & _).
  rewrite (surjective_pairing (getDefaultDestChain net)) in Hdest.
  injection Hdest as Hdt Hdc. rewrite <- Hdt in Htok. rewrite <- Hdc in Hchain.
  unfold submit_guard in Hguard.
  destruct (truthy (bf_amount f)); [|discriminate].
  destruct (truthy (bf_recipientAddress f)) eqn:Hrec; [|discriminate].
  destruct (truthy (bf_destChain f)); [|discriminate].
  destruct (truthy stellar_address) eqn:Haddr; [|discriminate].
  rewrite validate_first_violation.
  unfold first_violation, source_rules. cbn [find].
  cbn [holds rule_userAddress rule_fromToken rule_destToken rule_amount
       rule_destChain rule_recipient_present rule_recipient_format
       lockParams userAddress fromToken destToken amount destChain
       recipientAddress complaint].
  rewrite Haddr, Hfrom, Htok, Hchain, Hrec. cbn [negb orb member existsb
    source_tokens map getSupportedSourceTokens String.eqb Ascii.eqb Bool.eqb].
  destruct (positive (parseFloat (bf_amount f))); cbn [negb]; [|auto].
  destruct (is_evm_address (bf_recipientAddress f)); cbn [negb]; auto.
Qed.

Lemma panel_validation_errors_witness :
  validateBridgeParams
    (lockParams (fun _ => 5%float)
       (update_form (update_form (fresh_form "")
                       (AmountTyped "5")) (RecipientTyped "abc")) "GABC")
  = Some "Invalid recipient address format for Holsky Testnet".
Proof.
  destruct (panel_validation_errors (fun _ => 5%float)
              (update_form (update_form (fresh_form "")
                              (AmountTyped "5")) (RecipientTyped "abc"))
              "GABC"
              (reachable_update _ _ (reachable_update _ _ (reachable_fresh "")))
              eq_refl) as [H | [H | H]];
    [discriminate H | discriminate H | exact H].
Defined.

(** ** The progress timers *)

Lemma progress_tick_iter (step : Z) (n : nat) :
  (0 < step)%Z -> (step | 90)%Z ->
  Nat.iter n (progress_tick step) 0%Z = Z.min (step * Z.of_nat n) 90.
Proof.
  intros Hpos [k Hk].
  induction n as [|n IH]; [cbn; lia|].
  rewrite Nat.iter_succ, IH. unfold progress_tick.
  destruct (90 <=? Z.min (step * Z.of_nat n) 90)%Z eqn:E.
  - apply Z.leb_le in E. nia.
  - apply Z.leb_gt in E.
    assert (Hn : (Z.of_nat n < k)%Z) by nia.
    assert (Hle : (step * Z.of_nat (S n) <= 90)%Z) by nia.
    nia.
Qed.

(** X9: the panel's progress timers, each taken alone from 0, follow
    min(10 n, 90) for the bridge and min(15 n, 90) for a payment after n
    ticks: they stop at 90 and never report 100. *)
Theorem progress_timers_stop_at_90 (n : nat) :
  Nat.iter n (progress_tick 10) 0%Z = Z.min (10 * Z.of_nat n) 90
  /\ Nat.iter n (progress_tick 15) 0%Z = Z.min (15 * Z.of_nat n) 90
  /\ (Nat.iter n (progress_tick 10) 0 <= 90)%Z
  /\ (Nat.iter n (progress_tick 15) 0 <= 90)%Z.
Proof.
  assert (H10 : Nat.iter n (progress_tick 10) 0%Z = Z.min (10 * Z.of_nat n) 90).
  { apply progress_tick_iter; [lia | exists 9%Z; reflexivity]. }
  assert (H15 : Nat.iter n (progress_tick 15) 0%Z = Z.min (15 * Z.of_nat n) 90).
  { apply progress_tick_iter; [lia | exists 6%Z; reflexivity]. }
  rewrite H10, H15. repeat split; lia.
Qed.

(** ** The calls of an attempt *)

(** Exploring as [explore] does, giving up a branch as soon as two answers
    to the same test disagree. *)
Ltac prune :=
  try match goal with
      | E : false = true |- _ => discriminate E
      | E : true = false |- _ => discriminate E
      end.

Ltac survey_step :=
  reduce_prog;
  lazymatch goal with
  | |- forall _, _ => intro
  | |- wp ?p _ _ => stuck_in p; prune
  end.

Ltac survey := unfold_service; repeat survey_step.

Ltac rewrite_test E :=
  lazymatch type of E with
  | true = _ => fail
  | false = _ => fail
  | _ => rewrite E
  end.

Ltac use_platform_equations :=
  repeat match goal with
         | E : JSON_parse _ _ = _ |- _ => rewrite E
         | E : get_hash _ = _ |- _ => rewrite E
         | E : json _ = _ |- _ => rewrite E
         | E : _ = true |- _ => rewrite_test E
         | E : _ = false |- _ => rewrite_test E
         end.

(** Closing what is left of a property once the trace is known. *)
Ltac settle_step :=
  cbv beta;
  lazymatch goal with
  | |- True => exact I
  | |- _ /\ _ => split
  | |- _ \/ _ => first [left; reflexivity | right; reflexivity]
  | |- Forall _ _ => constructor
  | |- _ = _ -> _ =>
      let H := fresh "H" in intro H; try discriminate H
  | |- _ = _ => reflexivity
  | |- exists _, _ => eexists
  end.

Ltac settle := repeat settle_step.

Lemma attempt_calls_follow_request pf world win p net o a :
  calls_follow_request pf p net (trace (attempt pf world win p net o a))
  /\ calls_complete pf p a (trace (attempt pf world win p net o a)).
Proof.
  apply (attempt_wp pf world win p net o a
           (fun t _ _ =>
              calls_follow_request pf p net t /\ calls_complete pf p a t)).
  destruct o, a; survey; reduce_prog;
    unfold calls_follow_request, calls_complete, confirmed_lock_hashes,
      parsed_hash, is_lock_envelope;
    lazy beta iota zeta delta
      [observe stages stage_of account_url_of rpc_url_of rpc_address_of
       passphrase_of prepared_of lookup_url_of lookup_ledger_of timer_of
       release_call_of lock_network_of sign_call_of submit_network_of
       prepare_calls lock_calls lock_responses observer_faults
       flat_map map app fst snd];
    use_platform_equations;
    lazy beta iota zeta delta
      [observe stages stage_of account_url_of rpc_url_of rpc_address_of
       passphrase_of prepared_of lookup_url_of lookup_ledger_of timer_of
       release_call_of lock_network_of sign_call_of submit_network_of
       prepare_calls lock_calls lock_responses observer_faults
       flat_map map app fst snd];
    settle.
Qed.

(** ** The outcome of an attempt *)

Lemma attempt_outcome_reported pf world win p net o a :
  outcome_reported pf p net (trace (attempt pf world win p net o a))
    (outcome (attempt pf world win p net o a))
  /\ account_failure_reported (trace (attempt pf world win p net o a))
       (outcome (attempt pf world win p net o a)).
Proof.
  apply (attempt_wp pf world win p net o a
           (fun t _ out =>
              outcome_reported pf p net t out
              /\ account_failure_reported t out)).
  destruct o, a; survey; reduce_prog;
    unfold outcome_reported, account_failure_reported, account_failure;
    lazy beta iota zeta delta
      [observe observer_error_of account_answer_of stages stage_of
       lock_calls horizon_sequences horizon_sequence flat_map map app];
    use_platform_equations;
    lazy beta iota zeta delta
      [observe observer_error_of account_answer_of stages stage_of
       lock_calls horizon_sequences horizon_sequence flat_map map app];
    (split;
     [ first [ solve [ left; eexists; split; [eassumption | reflexivity] ]
             | solve [ right; left; eexists; reflexivity ]
             | solve [ right; right; eexists; split; [|reflexivity];
                       cbn [In]; tauto ]
             | solve [ split; [assumption|]; split; [reflexivity|];
                       split; [reflexivity|]; do 2 eexists; repeat split ] ]
     | first [ exact I | split; reflexivity ] ]).
Qed.

(** ** How an attempt ends *)

Lemma attempt_completion_reported pf world win p net o a :
  completion_reported pf p win (trace (attempt pf world win p net o a))
    (window (attempt pf world win p net o a))
    (outcome (attempt pf world win p net o a)).
Proof.
  apply (attempt_wp pf world win p net o a
           (fun t w out => completion_reported pf p win t w out)).
  destruct o, a; survey; reduce_prog;
    unfold completion_reported, released_hashes, confirmed_lock_hashes,
      submission_hash, parsed_hash, released_window;
    lazy beta iota zeta delta
      [observe sign_answer_of submit_answer_of clock_of release_responses
       release_hash lock_responses submit_calls observer_faults
       flat_map map app hd];
    unfold submitted_result, result_lockHash;
    cbn [message hash contractDetails cd_lockHash];
    use_platform_equations;
    lazy beta iota zeta delta
      [observe sign_answer_of submit_answer_of clock_of release_responses
       release_hash lock_responses submit_calls observer_faults
       flat_map map app hd];
    solve
      [ split; [reflexivity | exact I]
      | split;
        [ first [left; reflexivity | right; reflexivity]
        | intros Hquiet; first
            [ discriminate Hquiet
            | split; [reflexivity|]; do 2 eexists; repeat split ] ]
      | split; [reflexivity|];
        split; [reflexivity|];
        split;
        [ do 2 eexists; split; [reflexivity|]; split; [reflexivity|];
          split; [reflexivity|];
          intros H;
          first [discriminate H | use_platform_equations; reflexivity]
        | split; intros H;
          first [discriminate H | split; reflexivity | reflexivity] ] ].
Qed.

(** ** The attempt, property by property *)

Lemma network_by_name (net : string) :
  network (getBridgeConfig net)
  = if (net =? "stellar-mainnet")%string then "mainnet" else "testnet".
Proof.
  unfold getBridgeConfig. cbn [network].
  now destruct (net =? "stellar-mainnet")%string.
Qed.

Lemma rpcUrl_by_name (net : string) :
  rpcUrl (getBridgeConfig net)
  = if (net =? "stellar-mainnet")%string
    then "https://soroban-mainnet.stellar.org"
    else "https://soroban-testnet.stellar.org".
Proof.
  unfold getBridgeConfig. cbn [rpcUrl].
  now destruct (net =? "stellar-mainnet")%string.
Qed.

Lemma account_url_by_name (net : string) (p : BridgeParams) :
  account_url (getBridgeConfig net) p
  = (if (net =? "stellar-mainnet")%string then "https://horizon.stellar.org"
     else "https://horizon-testnet.stellar.org")
    ++ "/accounts/" ++ userAddress p.
Proof.
  unfold account_url. rewrite network_by_name.
  now destruct (net =? "stellar-mainnet")%string.
Qed.

(** X10: the calls of an attempt come in the order of the pipeline
    (account fetch, network query, account query, prepare, lock, lookup,
    timer, release, sign, submit, clock), each kind at most once, and none
    without the one it depends on: no release without the lookup and the
    timer, no signing without the lock call, no submission without the
    signing. *)
Theorem attempt_calls_in_pipeline_order (pf : Platform) (world : World)
  (win : Window) (p : BridgeParams) (net : string) (o a : bool) :
  in_pipeline_order (stages (trace (attempt pf world win p net o a))) = true
  /\ prerequisites_met (stages (trace (attempt pf world win p net o a)))
     = true.
Proof.
  destruct (attempt_calls_follow_request pf world win p net o a)
    as [(Horder & Hneeds & _) _].
  split; assumption.
Qed.

(** X11: the endpoints follow the network name.  The account fetch goes to
    the mainnet Horizon for "stellar-mainnet" and to the testnet Horizon
    for every other name, always for the request's user address; every
    Soroban RPC call goes to the mainnet RPC for "stellar-mainnet" and to
    the testnet RPC otherwise, and the RPC account query is for the user
    address too. *)
Theorem attempt_endpoints_follow_network (pf : Platform) (world : World)
  (win : Window) (p : BridgeParams) (net : string) (o a : bool) :
  Forall (eq ((if (net =? "stellar-mainnet")%string
               then "https://horizon.stellar.org"
               else "https://horizon-testnet.stellar.org")
              ++ "/accounts/" ++ userAddress p))
    (observe account_url_of (trace (attempt pf world win p net o a)))
  /\ Forall (eq (if (net =? "stellar-mainnet")%string
                 then "https://soroban-mainnet.stellar.org"
                 else "https://soroban-testnet.stellar.org"))
       (observe rpc_url_of (trace (attempt pf world win p net o a)))
  /\ Forall (eq (userAddress p))
       (observe rpc_address_of (trace (attempt pf world win p net o a))).
Proof.
  destruct (attempt_calls_follow_request pf world win p net o a)
    as [(_ & _ & Haccount & Hrpc & Haddress & _) _].
  rewrite <- account_url_by_name, <- rpcUrl_by_name.
  repeat split; assumption.
Qed.

(** X12: the lock transaction is looked up on the test network's
    Horizon, whatever the network of the attempt: every lookup goes to
    "https://horizon-testnet.stellar.org/transactions/" followed by the
    one lock hash the backend confirmed, and when the observer returns
    every time each confirmed hash is looked up. *)
Theorem lock_lookup_on_testnet_horizon (pf : Platform) (world : World)
  (win : Window) (p : BridgeParams) (net : string) (o a : bool) :
  Forall (fun url =>
            map lookup_url
              (confirmed_lock_hashes pf (trace (attempt pf world win p net o a)))
            = [url])
    (observe lookup_url_of (trace (attempt pf world win p net o a)))
  /\ (observer_faults (trace (attempt pf world win p net o a)) = [] ->
      observe lookup_url_of (trace (attempt pf world win p net o a))
      = map lookup_url
          (confirmed_lock_hashes pf (trace (attempt pf world win p net o a)))).
Proof.
  destruct (attempt_calls_follow_request pf world win p net o a)
    as [(_ & _ & _ & _ & _ & _ & _ & Hlookup & _) Hcomplete].
  split; [exact Hlookup|].
  intros Hquiet. exact (proj1 (proj2 (Hcomplete Hquiet))).
Qed.

Lemma lock_lookup_on_testnet_horizon_witness :
  observe lookup_url_of
    (trace (attempt sample_platform (scripted happy_script) sample_window
              sample_request "stellar-mainnet" true true))
  = ["https://horizon-testnet.stellar.org/transactions/" ++ sample_lock_hash].
Proof.
  exact (proj2 (lock_lookup_on_testnet_horizon sample_platform
                  (scripted happy_script) sample_window sample_request
                  "stellar-mainnet" true true)
           eq_refl).
Defined.

(** X13: the transaction handed to [prepareTransaction] has one operation,
    the call of [lock] on the bridge contract with the six arguments of the
    request (user, native asset contract, destination token, amount in
    stroops, destination chain bytes, recipient), the base fee and a
    timeout of 300; its passphrase is the one the RPC's [getNetwork]
    answered, not the configuration's.  What the backend is asked to lock
    is that transaction as [prepareTransaction] resolved it, and it is
    asked whenever there is a backend and the observer returns. *)
Theorem prepared_transaction_is_lock_envelope (pf : Platform)
  (world : World) (win : Window) (p : BridgeParams) (net : string)
  (o a : bool) :
  Forall (fun tx =>
            is_lock_envelope pf p tx
            /\ observe passphrase_of (trace (attempt pf world win p net o a))
               = [tx_networkPassphrase tx]
            /\ tx_soroban tx = None)
    (prepare_calls (trace (attempt pf world win p net o a)))
  /\ (lock_calls (trace (attempt pf world win p net o a)) = []
      \/ lock_calls (trace (attempt pf world win p net o a))
         = observe prepared_of (trace (attempt pf world win p net o a)))
  /\ (observer_faults (trace (attempt pf world win p net o a)) = [] ->
      lock_calls (trace (attempt pf world win p net o a))
      = (if a
         then observe prepared_of (trace (attempt pf world win p net o a))
         else [])).
Proof.
  destruct (attempt_calls_follow_request pf world win p net o a)
    as [(_ & _ & _ & _ & _ & Henvelope & Hlock & _) Hcomplete].
  split; [exact Henvelope|]. split; [exact Hlock|].
  intros Hquiet. exact (proj1 (Hcomplete Hquiet)).
Qed.

Lemma prepared_transaction_is_lock_envelope_witness :
  map tx_fee
    (lock_calls
       (trace (attempt sample_platform (scripted happy_script) sample_window
                 sample_request "stellar-testnet" true true)))
  = ["45603"].
Proof.
  rewrite (proj2 (proj2 (prepared_transaction_is_lock_envelope
                           sample_platform (scripted happy_script)
                           sample_window sample_request "stellar-testnet"
                           true true))
             eq_refl).
  reflexivity.
Defined.

(** X14: the release is asked for with what the lookup gave.  Every
    [fetch_stellar_events] call carries the [ledger] of the one lookup
    whose body could be read (absent when the body has none) and the
    request's destination chain, and every timer is of 8000 ms; when the
    observer returns every time, each readable lookup is followed by one
    timer and one such call. *)
Theorem release_follows_lookup (pf : Platform) (world : World)
  (win : Window) (p : BridgeParams) (net : string) (o a : bool) :
  Forall (fun call =>
            observe lookup_ledger_of (trace (attempt pf world win p net o a))
            = [fst call]
            /\ snd call = destChain p)
    (observe release_call_of (trace (attempt pf world win p net o a)))
  /\ Forall (eq 8000%Z)
       (observe timer_of (trace (attempt pf world win p net o a)))
  /\ (observer_faults (trace (attempt pf world win p net o a)) = [] ->
      observe release_call_of (trace (attempt pf world win p net o a))
      = map (fun l => (l, destChain p))
          (observe lookup_ledger_of (trace (attempt pf world win p net o a)))
      /\ observe timer_of (trace (attempt pf world win p net o a))
         = map (fun _ => 8000%Z)
             (observe lookup_ledger_of
                (trace (attempt pf world win p net o a)))).
Proof.
  destruct (attempt_calls_follow_request pf world win p net o a)
    as [(_ & _ & _ & _ & _ & _ & _ & _ & Hrelease & Htimer & _) Hcomplete].
  split; [exact Hrelease|]. split; [exact Htimer|].
  intros Hquiet. exact (proj2 (proj2 (Hcomplete Hquiet))).
Qed.

Lemma release_follows_lookup_witness :
  observe release_call_of
    (trace (attempt sample_platform (scripted happy_script) sample_window
              sample_request "stellar-testnet" true true))
  = [(Some 42%Z, "17000")].
Proof.
  exact (proj1 (proj2 (proj2 (release_follows_lookup sample_platform
                                (scripted happy_script) sample_window
                                sample_request "stellar-testnet" true true))
                  eq_refl)).
Defined.

(** X15: the backend is told the network in two ways.  The lock call gets
    the short name of the configuration ("mainnet" for "stellar-mainnet",
    "testnet" otherwise); the signing and the submission get the name the
    caller passed, unchanged, and the signing is for the request's user
    address. *)
Theorem backend_calls_name_network (pf : Platform) (world : World)
  (win : Window) (p : BridgeParams) (net : string) (o a : bool) :
  Forall (eq (if (net =? "stellar-mainnet")%string
              then "mainnet" else "testnet"))
    (observe lock_network_of (trace (attempt pf world win p net o a)))
  /\ Forall (eq (userAddress p, net))
       (observe sign_call_of (trace (attempt pf world win p net o a)))
  /\ Forall (eq net)
       (observe submit_network_of (trace (attempt pf world win p net o a))).
Proof.
  destruct (attempt_calls_follow_request pf world win p net o a)
    as [(_ & _ & _ & _ & _ & _ & _ & _ & _ & _ & Hlock & Hsign & Hsubmit) _].
  rewrite <- network_by_name.
  repeat split; assumption.
Qed.

(** X16: what an attempt throws is one of three things: the validator's
    message, as it is; an [Error] whose message begins "Transaction
    building failed: ", which covers every failure of the account fetch,
    the build, the signing and the submission; or what the caller's
    observer threw at 10 or at 25, the two reports made before the
    [try]. *)
Theorem attempt_error_is_tagged (pf : Platform) (world : World)
  (win : Window) (p : BridgeParams) (net : string) (o a : bool)
  (e : JsError) :
  outcome (attempt pf world win p net o a) = Threw e ->
  (exists msg, validateBridgeParams p = Some msg /\ e = Error msg)
  \/ (exists m, e = Error ("Transaction building failed: " ++ m))
  \/ (exists n,
        In n [10; 25]%Z
        /\ observe observer_error_of (trace (attempt pf world win p net o a))
           = [(n, e)]).
Proof.
  intros Hthrew.
  destruct (attempt_outcome_reported pf world win p net o a) as [H _].
  rewrite Hthrew in H. exact H.
Qed.

Lemma attempt_error_is_tagged_witness :
  (exists msg,
     validateBridgeParams sample_request = Some msg
     /\ Error ("Transaction building failed: "
               ++ "Account not found. Please fund your account first.")
        = Error msg)
  \/ (exists m,
        Error ("Transaction building failed: "
               ++ "Account not found. Please fund your account first.")
        = Error ("Transaction building failed: " ++ m))
  \/ (exists n,
        In n [10; 25]%Z
        /\ observe observer_error_of
             (trace (attempt sample_platform (scripted unfunded_script)
                       sample_window sample_request "stellar-testnet"
                       true true))
           = [(n, Error ("Transaction building failed: "
                         ++ "Account not found. Please fund your account first."))]).
Proof.
  exact (attempt_error_is_tagged sample_platform (scripted unfunded_script)
           sample_window sample_request "stellar-testnet" true true
           _ eq_refl).
Defined.

Lemma validation_message_truthy (p : BridgeParams) (m : string) :
  validateBridgeParams p = Some m ->
  truthy m = true /\ m <> "Bridge transaction failed".
Proof.
  unfold validateBridgeParams.
  repeat match goal with
         | |- context [if ?b then _ else _] => destruct b
         end;
    intros H; first [discriminate H | injection H as <-];
    (split; [reflexivity | discriminate]).
Qed.

Lemma observer_faults_errors (t : list Event) :
  observer_faults t = map fst (observe observer_error_of t).
Proof.
  induction t as [|[X c x] t IH]; [reflexivity|].
  destruct c; cbn [observer_faults observe observer_error_of];
    try exact IH.
  destruct x; cbn [map fst]; [exact IH | now rewrite IH].
Qed.

(** X17: the panel shows the service's own message.  The panel's observer
    is its state setter, which returns; when the attempt throws, the
    message [handleBridgeTransaction] puts in the failed result and in the
    toast is then the message of the error, never the fallback text
    "Bridge transaction failed". *)
Theorem panel_shows_service_message (pf : Platform) (world : World)
  (win : Window) (p : BridgeParams) (net : string) (o a : bool)
  (e : JsError) :
  outcome (attempt pf world win p net o a) = Threw e ->
  observer_faults (trace (attempt pf world win p net o a)) = [] ->
  failure_message e = err_message e
  /\ failure_message e <> "Bridge transaction failed".
Proof.
  intros Hthrew Hquiet.
  destruct (attempt_outcome_reported pf world win p net o a) as [H _].
  rewrite Hthrew in H.
  destruct H as [(msg & Hmsg & ->) | [(m & ->) | (n & _ & Herror)]].
  - destruct (validation_message_truthy p msg Hmsg) as [Htruthy Hother].
    unfold failure_message, or_else. cbn [err_message Error].
    rewrite Htruthy. split; [reflexivity | exact Hother].
  - split; [reflexivity | discriminate].
  - rewrite observer_faults_errors, Herror in Hquiet. discriminate Hquiet.
Qed.

Lemma panel_shows_service_message_witness :
  failure_message
    (Error "Invalid recipient address format for Holsky Testnet")
  = "Invalid recipient address format for Holsky Testnet".
Proof.
  exact (proj1 (panel_shows_service_message sample_platform
                  (scripted happy_script) sample_window
                  bad_recipient_request "stellar-testnet" true true
                  _ eq_refl eq_refl)).
Defined.

(** X18: a result that is returned says what was asked and done.  The
    request passed validation; [success] is true; [bridgeDetails] echoes
    the request (from "Stellar" to the name of the destination chain, the
    amount as text, the destination token, the recipient);
    [contractDetails] names the bridge contract, the short network name,
    the user, the one transaction the backend was asked to lock, and as
    [sequenceNumber] the sequence the Horizon account fetch returned. *)
Theorem success_echoes_request (pf : Platform) (world : World)
  (win : Window) (p : BridgeParams) (net : string) (o a : bool)
  (r : BridgeResult) :
  outcome (attempt pf world win p net o a) = Returned r ->
  validateBridgeParams p = None
  /\ success r = true
  /\ bridgeDetails r = request_echo pf p
  /\ exists d x,
       contractDetails r = Some d
       /\ cd_contractId d = BRIDGE_CONTRACT
       /\ cd_network d = network (getBridgeConfig net)
       /\ cd_userAddress d = userAddress p
       /\ cd_transactionXDR d = Some x
       /\ lock_calls (trace (attempt pf world win p net o a)) = [x]
       /\ horizon_sequences (trace (attempt pf world win p net o a))
          = [cd_sequenceNumber d].
Proof.
  intros Hreturned.
  destruct (attempt_outcome_reported pf world win p net o a) as [H _].
  rewrite Hreturned in H. exact H.
Qed.

Lemma success_echoes_request_witness :
  match outcome (attempt sample_platform (scripted happy_script)
                   sample_window sample_request "stellar-testnet" true true)
  with
  | Returned r =>
      bridgeDetails r = request_echo sample_platform sample_request
      /\ exists d, contractDetails r = Some d /\ cd_sequenceNumber d = "100"
  | Threw _ => False
  end.
Proof.
  destruct (outcome (attempt sample_platform (scripted happy_script)
                       sample_window sample_request "stellar-testnet"
                       true true)) as [r | e] eqn:Hout.
  - destruct (success_echoes_request sample_platform (scripted happy_script)
                sample_window sample_request "stellar-testnet" true true
                r Hout)
      as (_ & _ & Hecho & d & x & Hd & _ & _ & _ & _ & _ & Hsequence).
    split; [exact Hecho|].
    exists d. split; [exact Hd|].
    vm_compute in Hsequence.
    injection Hsequence as Hsequence. symmetry. exact Hsequence.
  - vm_compute in Hout. discriminate Hout.
Defined.

(** X19: a failed account fetch ends the attempt at once.  When the
    Horizon fetch does not give an account, the attempt throws
    "Transaction building failed: " followed by the reason ("Account not
    found. Please fund your account first." for status 404, "Failed to
    fetch account data: <status>" for any other status that is not ok, the
    message of the rejection otherwise), and the fetch is its only call
    besides progress reports. *)
Theorem account_failure_stops_attempt (pf : Platform) (world : World)
  (win : Window) (p : BridgeParams) (net : string) (o a : bool)
  (x : Settled (HttpResponse AccountData)) (m : string) :
  observe account_answer_of (trace (attempt pf world win p net o a)) = [x] ->
  account_failure x = Some m ->
  outcome (attempt pf world win p net o a)
  = Threw (Error ("Transaction building failed: " ++ m))
  /\ stages (trace (attempt pf world win p net o a)) = [AccountFetch].
Proof.
  intros Hanswer Hfailure.
  destruct (attempt_outcome_reported pf world win p net o a) as [_ H].
  unfold account_failure_reported in H.
  rewrite Hanswer, Hfailure in H. exact H.
Qed.

Lemma account_failure_stops_attempt_witness :
  outcome (attempt sample_platform (scripted unfunded_script) sample_window
             sample_request "stellar-testnet" true true)
  = Threw (Error ("Transaction building failed: "
                  ++ "Account not found. Please fund your account first."))
  /\ stages (trace (attempt sample_platform (scripted unfunded_script)
                      sample_window sample_request "stellar-testnet"
                      true true))
     = [AccountFetch].
Proof.
  exact (account_failure_stops_attempt sample_platform
           (scripted unfunded_script) sample_window sample_request
           "stellar-testnet" true true _ _ eq_refl eq_refl).
Defined.

(** X20: when the destination hash comes back and the observer returns
    every time, the attempt returns the completed result and leaves the
    hash on [window].  The result has that hash, the message "Bridge
    transaction completed successfully", the destination chain's explorer
    link for the hash, and as [lockHash] the one lock hash the backend
    confirmed; [window.holeskyTxHash] and [window.holeskyExplorerUrl] are
    set to the hash and the link. *)
Theorem release_completes_attempt (pf : Platform) (world : World)
  (win : Window) (p : BridgeParams) (net : string) (o a : bool)
  (h : string) (rest : list string) :
  released_hashes (trace (attempt pf world win p net o a)) = h :: rest ->
  observer_faults (trace (attempt pf world win p net o a)) = [] ->
  window (attempt pf world win p net o a) = released_window p h
  /\ exists r lockHash,
       outcome (attempt pf world win p net o a) = Returned r
       /\ hash r = h
       /\ message r = "Bridge transaction completed successfully"
       /\ explorer_url r = getChainExplorerUrl (destChain p) h
       /\ confirmed_lock_hashes pf (trace (attempt pf world win p net o a))
          = [lockHash]
       /\ result_lockHash r = Some lockHash.
Proof.
  intros Hreleased Hquiet.
  pose proof (attempt_completion_reported pf world win p net o a) as H.
  unfold completion_reported in H. rewrite Hreleased in H.
  exact (proj2 H Hquiet).
Qed.

Lemma release_completes_attempt_witness :
  window (attempt sample_platform (scripted happy_script) sample_window
            sample_request "stellar-testnet" true true)
  = {| holeskyTxHash := sample_release_hash;
       holeskyExplorerUrl :=
         "https://holesky.etherscan.io/tx/" ++ sample_release_hash |}.
Proof.
  exact (proj1 (release_completes_attempt sample_platform
                  (scripted happy_script) sample_window sample_request
                  "stellar-testnet" true true sample_release_hash []
                  eq_refl eq_refl)).
Defined.

(** X21: an attempt writes [window] only for a destination hash that came
    back.  When none came back, [window] is left as it was found, whether
    the attempt returns or throws; when one did, [window] is as it was (the
    observer threw before the write) or holds that hash and its explorer
    link. *)
Theorem window_written_only_on_release (pf : Platform) (world : World)
  (win : Window) (p : BridgeParams) (net : string) (o a : bool) :
  match released_hashes (trace (attempt pf world win p net o a)) with
  | [] => window (attempt pf world win p net o a) = win
  | h :: _ =>
      window (attempt pf world win p net o a) = win
      \/ window (attempt pf world win p net o a) = released_window p h
  end.
Proof.
  pose proof (attempt_completion_reported pf world win p net o a) as H.
  unfold completion_reported in H.
  destruct (released_hashes (trace (attempt pf world win p net o a)));
    exact (proj1 H).
Qed.

(** X22: a result returned without a destination hash is the sign-and-submit
    one, and it trusts what [window] already held.  The signing and the
    submission both answered Ok, and the signed text is what was
    submitted.  If [window.holeskyTxHash] was set before the attempt (by
    an earlier one), the result carries that old hash and the message
    "Bridge transaction completed successfully"; otherwise the message is
    "Soroban lock contract executed successfully" and the hash is the one
    of the submission answer, or "stellar_tx_" and the clock when that has
    none. *)
Theorem fallback_result_trusts_window (pf : Platform) (world : World)
  (win : Window) (p : BridgeParams) (net : string) (o a : bool)
  (r : BridgeResult) :
  released_hashes (trace (attempt pf world win p net o a)) = [] ->
  outcome (attempt pf world win p net o a) = Returned r ->
  (exists signed text,
     observe sign_answer_of (trace (attempt pf world win p net o a))
     = [Resolved (Ok signed)]
     /\ submit_calls (trace (attempt pf world win p net o a)) = [signed]
     /\ observe submit_answer_of (trace (attempt pf world win p net o a))
        = [Resolved (Ok text)]
     /\ (truthy (holeskyTxHash win) = false ->
         hash r
         = submission_hash pf text (trace (attempt pf world win p net o a))))
  /\ (truthy (holeskyTxHash win) = true ->
      hash r = holeskyTxHash win
      /\ message r = "Bridge transaction completed successfully")
  /\ (truthy (holeskyTxHash win) = false ->
      message r = "Soroban lock contract executed successfully").
Proof.
  intros Hreleased Hreturned.
  pose proof (attempt_completion_reported pf world win p net o a) as H.
  unfold completion_reported in H.
  rewrite Hreleased, Hreturned in H.
  destruct H as (_ & _ & H). exact H.
Qed.

Lemma fallback_result_trusts_window_witness :
  match outcome (attempt sample_platform (scripted signing_backend_script)
                   stale_window sample_request "stellar-testnet" true true)
  with
  | Returned r =>
      hash r = sample_release_hash
      /\ message r = "Bridge transaction completed successfully"
  | Threw _ => False
  end.
Proof.
  destruct (outcome (attempt sample_platform
                       (scripted signing_backend_script) stale_window
                       sample_request "stellar-testnet" true true))
    as [r | e] eqn:Hout.
  - exact (proj1 (proj2 (fallback_result_trusts_window sample_platform
                           (scripted signing_backend_script) stale_window
                           sample_request "stellar-testnet" true true
                           r eq_refl Hout))
             eq_refl).
  - vm_compute in Hout. discriminate Hout.
Defined.

(** X23: without the backend actor no attempt succeeds.  It makes no call
    past [prepareTransaction] (no lock, lookup, release, signing or
    submission), it always throws, and when the transaction was prepared
    and the observer returned every time the error is "Transaction
    building failed: Backend not available for transaction signing". *)
Theorem attempt_without_backend_fails (pf : Platform) (world : World)
  (win : Window) (p : BridgeParams) (net : string) (o : bool) :
  stops_by Prepare (stages (trace (attempt pf world win p net o false)))
  = true
  /\ (exists e, outcome (attempt pf world win p net o false) = Threw e)
  /\ (forall simulation,
        observe prepare_answer_of (trace (attempt pf world win p net o false))
        = [Resolved simulation] ->
        observer_faults (trace (attempt pf world win p net o false)) = [] ->
        outcome (attempt pf world win p net o false)
        = Threw (Error ("Transaction building failed: "
                        ++ "Backend not available for transaction signing"))).
Proof.
  apply (attempt_wp pf world win p net o false
           (fun t _ out => backend_missing_reported t out)).
  destruct o; survey; reduce_prog;
    unfold backend_missing_reported, stops_by;
    lazy beta iota zeta delta
        [observe stages stage_of prepare_answer_of observer_faults];
    (split; [reflexivity|]); (split; [eexists; reflexivity|]);
    intros simulation H Hquiet;
    first [discriminate H | discriminate Hquiet | reflexivity].
Qed.

Lemma attempt_without_backend_fails_witness :
  outcome (attempt sample_platform (scripted happy_script) sample_window
             sample_request "stellar-testnet" true false)
  = Threw (Error ("Transaction building failed: "
                  ++ "Backend not available for transaction signing")).
Proof.
  exact (proj2 (proj2 (attempt_without_backend_fails sample_platform
                         (scripted happy_script) sample_window
                         sample_request "stellar-testnet" true))
           (mkSimulation "45603" "footprint") eq_refl eq_refl).
Defined.

(** X24: an address the SDK does not accept is found out only after the
    Horizon fetch, and before anything else.  When [new Address] throws
    for the request's user address, the account fetch is the only call an
    attempt can make (no RPC call, no backend call); the attempt throws,
    and when the fetch gave an account and the observer returned every
    time the error is "Transaction building failed: Failed to build
    transaction: Invalid userAddress: <address> - <the SDK's message>". *)
Theorem rejected_address_stops_before_rpc (pf : Platform) (world : World)
  (win : Window) (p : BridgeParams) (net : string) (o a : bool)
  (msg : string) :
  Address_new pf (userAddress p) = Some msg ->
  stops_by AccountFetch (stages (trace (attempt pf world win p net o a)))
  = true
  /\ (exists e, outcome (attempt pf world win p net o a) = Threw e)
  /\ (forall x,
        observe account_answer_of (trace (attempt pf world win p net o a))
        = [x] ->
        account_failure x = None ->
        observer_faults (trace (attempt pf world win p net o a)) = [] ->
        outcome (attempt pf world win p net o a)
        = Threw (Error ("Transaction building failed: "
                        ++ "Failed to build transaction: "
                        ++ "Invalid userAddress: " ++ userAddress p
                        ++ " - " ++ msg))).
Proof.
  intros Hrejected.
  apply (attempt_wp pf world win p net o a
           (fun t _ out => rejected_address_reported p msg t out)).
  destruct o, a; survey; reduce_prog;
    try congruence;
    unfold rejected_address_reported, stops_by, account_failure;
    lazy beta iota zeta delta
        [observe stages stage_of account_answer_of observer_faults];
    (split; [reflexivity|]); (split; [eexists; reflexivity|]);
    intros answer Hx Hok Hquiet;
    first [ discriminate Hx
          | discriminate Hquiet
          | match goal with
            | V : validateBridgeParams ?p = None,
              F : truthy (userAddress ?p) = false |- _ =>
                rewrite (validated_address p V) in F; discriminate F
            end
          | injection Hrejected as <-; reflexivity
          | injection Hx as <-; revert Hok; lazy beta iota;
            use_platform_equations; discriminate ].
Qed.

Lemma rejected_address_stops_before_rpc_witness :
  stages (trace (attempt sample_platform (scripted happy_script)
                   sample_window foreign_address_request "stellar-testnet"
                   true true))
  = [AccountFetch]
  /\ outcome (attempt sample_platform (scripted happy_script) sample_window
                foreign_address_request "stellar-testnet" true true)
     = Threw (Error ("Transaction building failed: "
                     ++ "Failed to build transaction: "
                     ++ "Invalid userAddress: "
                     ++ "0x8Da1867ab5eE5385dc72f5901bC9Bd16F580d157"
                     ++ " - " ++ "Unsupported address type: "
                     ++ "0x8Da1867ab5eE5385dc72f5901bC9Bd16F580d157")).
Proof.
  split; [reflexivity|].
  exact (proj2 (proj2 (rejected_address_stops_before_rpc sample_platform
                         (scripted happy_script) sample_window
                         foreign_address_request "stellar-testnet" true true
                         ("Unsupported address type: "
                          ++ "0x8Da1867ab5eE5385dc72f5901bC9Bd16F580d157")
                         eq_refl))
           (on_FetchAccount happy_script) eq_refl eq_refl eq_refl).
Defined.

(** ** The destination chain argument of accepted requests *)

Lemma accepted_destination_chain (p : BridgeParams) :
  validateBridgeParams p = None ->
  destChain p = "17000" \/ destChain p = "8453".
Proof.
  intros Hvalid. rewrite validate_first_violation in Hvalid.
  assert (Hrule : holds rule_destChain p = true).
  { apply (first_violation_none source_rules p Hvalid).
    cbn. tauto. }
  change (member (destChain p) destination_chains = true) in Hrule.
  rewrite member_destination_chains in Hrule.
  apply orb_true_iff in Hrule.
  destruct Hrule as [H | H]; apply String.eqb_eq in H; auto.
Qed.

(** X25: the two destination chains reach the contract in two encodings.
    For a request the validator accepts, the bytes [toBytes] makes of the
    destination chain are the five ASCII digits of "17000", or for "8453"
    the two bytes 0x84 0x53 of its reading as hexadecimal. *)
Theorem accepted_chain_bytes (p : BridgeParams) :
  validateBridgeParams p = None ->
  (destChain p = "17000"
   /\ toBytes (destChain p) = [x31; x37; x30; x30; x30]%byte)
  \/ (destChain p = "8453" /\ toBytes (destChain p) = [x84; x53]%byte).
Proof.
  intros Hvalid.
  destruct (accepted_destination_chain p Hvalid) as [H | H]; rewrite H;
    [left | right]; split; reflexivity.
Qed.

Lemma accepted_chain_bytes_witness :
  (destChain sample_request = "17000"
   /\ toBytes (destChain sample_request) = [x31; x37; x30; x30; x30]%byte)
  \/ (destChain sample_request = "8453"
      /\ toBytes (destChain sample_request) = [x84; x53]%byte).
Proof. exact (accepted_chain_bytes sample_request eq_refl). Defined.
